(** * vapor-chamber: the command bus of [src/command-bus.ts]

    A shallow embedding of [createCommandBus] and [createAsyncCommandBus]:
    the handler registry, the plugin chain, the after-hooks and [dispatch].

    JavaScript functions are objects with an identity ([indexOf] compares
    them with [===]).  The bus therefore stores function identities
    ([fid]); what a function does when it is called is looked up in a code
    table ([Code], [AsyncCode]).  Client code (handlers, plugins, hooks) is
    an arbitrary state transformer over the [World]: it can touch the
    registry, the plugin array, the hook array, the command objects, the
    result objects and its own state, and it can throw.  Commands and
    results are objects passed by reference: what is handed from one
    function to the next is the reference, and a write through it is seen
    by everyone who holds it. *)

From stdpp Require Import gmap strings list pretty sorting.
From Stdlib Require Import ZArith.

(** ** JavaScript values ([any]) *)

Inductive Val : Type :=
| VUndefined
| VBool (b : bool)
| VNum (z : Z)
| VStr (s : string)
| VError (message : string)              (* new Error(message) *)
| VObj (fields : Fields)                 (* object literal *)
with Fields : Type :=
| FNil
| FCons (key : string) (v : Val) (rest : Fields).

(** [export type Command = { action; target; payload? }] *)
Record Command : Type := mkCommand {
  action : string;
  target : Val;
  payload : Val;
}.

(** [export type CommandResult = { ok; value?; error? }] *)
Record CommandResult : Type := mkResult {
  ok : bool;
  value : option Val;
  error : option Val;
}.

(** [{ ok: true, value }] *)
Definition result_ok (v : Val) : CommandResult :=
  {| ok := true; value := Some v; error := None |}.

(** [{ ok: false, error: e as Error }] *)
Definition result_error (e : Val) : CommandResult :=
  {| ok := false; value := None; error := Some e |}.

(** [{ ok: false, error: new Error(`No handler: ${action}`) }] *)
Definition no_handler (act : string) : CommandResult :=
  result_error (VError ("No handler: " +:+ act)).

(** Identity of a function object. *)
Definition fid : Type := nat.

(** Reference to a Command object (index into the heap of commands). *)
Definition ref : Type := nat.

(** Reference to a CommandResult object (index into the heap of results). *)
Definition rref : Type := nat.

(** How a call ends: it returns or it throws. *)
Inductive Completion (A : Type) : Type :=
| Normal (a : A)
| Thrown (e : Val).
Arguments Normal {A} a.
Arguments Thrown {A} e.

(** [indexOf]: position of the first element [===] to [x]; [None] is -1. *)
Fixpoint indexOf (x : fid) (l : list fid) : option nat :=
  match l with
  | [] => None
  | y :: l' => if decide (y = x) then Some 0 else S <$> indexOf x l'
  end.

Section Model.

Context {U : Type}.

(** The closure state of one bus ([handlers], [plugins], [afterHooks]),
    the Command and CommandResult objects allocated so far, the diagnostic
    sink ([console.error]) and the state owned by client code. *)
Record World : Type := mkWorld {
  handlers : gmap string fid;          (* new Map<string, Handler>() *)
  plugins : list fid;                  (* const plugins: Plugin[] = [] *)
  afterHooks : list fid;               (* const afterHooks: Hook[] = [] *)
  cmds : list Command;                 (* heap of Command objects *)
  results : list CommandResult;        (* heap of CommandResult objects *)
  console : list (string * Val);       (* calls of console.error *)
  user : U;
}.

Definition set_handlers (f : gmap string fid → gmap string fid) (w : World) : World :=
  mkWorld (f (handlers w)) (plugins w) (afterHooks w) (cmds w) (results w)
          (console w) (user w).
Definition set_plugins (f : list fid → list fid) (w : World) : World :=
  mkWorld (handlers w) (f (plugins w)) (afterHooks w) (cmds w) (results w)
          (console w) (user w).
Definition set_afterHooks (f : list fid → list fid) (w : World) : World :=
  mkWorld (handlers w) (plugins w) (f (afterHooks w)) (cmds w) (results w)
          (console w) (user w).
Definition set_cmds (f : list Command → list Command) (w : World) : World :=
  mkWorld (handlers w) (plugins w) (afterHooks w) (f (cmds w)) (results w)
          (console w) (user w).
Definition set_results (f : list CommandResult → list CommandResult) (w : World) : World :=
  mkWorld (handlers w) (plugins w) (afterHooks w) (cmds w) (f (results w))
          (console w) (user w).
Definition set_user (f : U → U) (w : World) : World :=
  mkWorld (handlers w) (plugins w) (afterHooks w) (cmds w) (results w)
          (console w) (f (user w)).

(** [console.error(label, e)] *)
Definition console_error (label : string) (e : Val) (w : World) : World :=
  mkWorld (handlers w) (plugins w) (afterHooks w) (cmds w) (results w)
          (console w ++ [(label, e)]) (user w).

(** ** Blocking computations: state and exceptions *)

Definition M (A : Type) : Type := World → Completion A * World.

Definition ret {A} (a : A) : M A := fun w => (Normal a, w).

Definition bind {A B} (m : M A) (k : A → M B) : M B :=
  fun w => match m w with
           | (Normal a, w') => k a w'
           | (Thrown e, w') => (Thrown e, w')
           end.

(** The world with one more result object. *)
Definition alloc_result (res : CommandResult) (w : World) : World :=
  set_results (fun rs => rs ++ [res]) w.

(** An object literal [{ ok, value, error }]: a fresh result object, and
    the reference to it. *)
Definition new_result (res : CommandResult) : M rref :=
  fun w => (Normal (length (results w)), alloc_result res w).

(** [export type Handler = (cmd: Command) => any] *)
Definition Handler : Type := ref → M Val.
(** [export type Plugin = (cmd: Command, next: () => CommandResult) => CommandResult] *)
Definition Plugin : Type := ref → M rref → M rref.
(** [export type Hook = (cmd: Command, result: CommandResult) => void] *)
Definition Hook : Type := ref → rref → M unit.

(** What each function object does when called. *)
Record Code : Type := mkCode {
  handler_fn : fid → Handler;
  plugin_fn : fid → Plugin;
  hook_fn : fid → Hook;
}.

(** ** createCommandBus *)

(** [register]: [handlers.set(action, handler)], and the returned closure
    [() => handlers.delete(action)]. *)
Definition register (act : string) (handler : fid) (w : World)
  : (World → World) * World :=
  (set_handlers (delete act), set_handlers (<[act := handler]>) w).

(** The closure returned by [use] and by [onAfter]:
    [const i = xs.indexOf(f); if (i !== -1) xs.splice(i, 1)]. *)
Definition splice_out (f : fid) (xs : list fid) : list fid :=
  match indexOf f xs with
  | Some i => delete i xs
  | None => xs
  end.

(** [use]: [plugins.push(plugin)], and the unsubscribe closure. *)
Definition use (plugin : fid) (w : World) : (World → World) * World :=
  (set_plugins (splice_out plugin), set_plugins (fun ps => ps ++ [plugin]) w).

(** [onAfter]: [afterHooks.push(hook)], and the unsubscribe closure. *)
Definition onAfter (hook : fid) (w : World) : (World → World) * World :=
  (set_afterHooks (splice_out hook), set_afterHooks (fun hs => hs ++ [hook]) w).

(** [const cmd: Command = { action, target, payload }]: a fresh object. *)
Definition new_command (act : string) (tgt pl : Val) (w : World) : ref * World :=
  (length (cmds w), set_cmds (fun cs => cs ++ [mkCommand act tgt pl]) w).

(** The innermost step [execute]; [handler] is the variable captured by
    the closure, the result of [handlers.get(action)].  Each branch
    returns a fresh result object. *)
Definition execute (code : Code) (handler : option fid) (act : string) (cmd : ref)
  : M rref :=
  fun w =>
    match handler with
    | None => new_result (no_handler act) w
    | Some h =>
        match handler_fn code h cmd w with
        | (Normal v, w') => new_result (result_ok v) w'
        | (Thrown e, w') => new_result (result_error e) w'
        end
    end.

(** [plugins.reduceRight((next, plugin) => () => plugin(cmd, next), execute)] *)
Definition chain (code : Code) (ps : list fid) (cmd : ref) (execute : M rref)
  : M rref :=
  foldr (fun plugin next => fun w => plugin_fn code plugin cmd next w) execute ps.

(** One iteration body of the hook loop:
    [try { hook(cmd, result) } catch (e) { console.error(..., e) }]. *)
Definition call_hook (code : Code) (hook : fid) (cmd : ref) (result : rref)
  (w : World) : World :=
  match hook_fn code hook cmd result w with
  | (Normal _, w') => w'
  | (Thrown e, w') => console_error "[vapor-chamber] Hook error:" e w'
  end.

(** [for (const hook of afterHooks) ...]: the array iterator keeps an
    index and reads the live array at every step, so pushes and splices
    made by a hook are seen by the rest of the loop.  [fuel] bounds the
    number of iterations; [None] means the loop has not finished. *)
Fixpoint run_hooks (code : Code) (fuel : nat) (i : nat) (cmd : ref)
  (result : rref) (w : World) : option World :=
  match fuel with
  | 0 => None
  | S fuel' =>
      match afterHooks w !! i with
      | None => Some w
      | Some hook => run_hooks code fuel' (S i) cmd result (call_hook code hook cmd result w)
      end
  end.

(** What follows [const result = chain()]: a throw leaves [dispatch]
    at once; a result object is shown to the hooks and that same object
    is returned, as the hooks left it. *)
Definition notify (code : Code) (fuel : nat) (cmd : ref)
  (r : Completion rref * World) : option (Completion rref * World) :=
  match r with
  | (Thrown e, w1) => Some (Thrown e, w1)
  | (Normal result, w1) =>
      match run_hooks code fuel 0 cmd result w1 with
      | Some w2 => Some (Normal result, w2)
      | None => None
      end
  end.

(** [dispatch(action, target, payload)] of the blocking bus; [fuel]
    bounds the hook loop. *)
Definition dispatch (code : Code) (fuel : nat) (act : string) (tgt pl : Val)
  (w : World) : option (Completion rref * World) :=
  let '(cmd, w0) := new_command act tgt pl w in
  let handler := handlers w0 !! act in
  notify code fuel cmd
    (chain code (plugins w0) cmd (execute code handler act cmd) w0).

(** What the caller holds when [dispatch] has returned: the fields of the
    returned object, or the error thrown. *)
Definition outcome (x : option (Completion rref * World))
  : option (Completion (option CommandResult)) :=
  (fun y => match y.1 with
            | Normal r => Normal (results y.2 !! r)
            | Thrown e => Thrown e
            end) <$> x.

(** ** Suspension-capable computations

    The state of a promise as seen by the one flow of control that awaits
    it: settled (fulfilled with a value or rejected with an error), or
    suspended, having yielded control in world [w]; when the event loop
    resumes it in a world [w'] it goes on as [resume w'].  [Unsettled] is
    a promise that does not settle (the hook loop out of fuel). *)
Inductive Task (A : Type) : Type :=
| Settled (r : Completion A) (w : World)
| Suspended (w : World) (resume : World → Task A)
| Unsettled.
Arguments Settled {A} r w.
Arguments Suspended {A} w resume.
Arguments Unsettled {A}.

Definition Async (A : Type) : Type := World → Task A.

(** Continue with [k] once the task has settled. *)
Fixpoint and_then {A B} (t : Task A) (k : Completion A → Async B) : Task B :=
  match t with
  | Settled r w => k r w
  | Suspended w resume => Suspended w (fun w' => and_then (resume w') k)
  | Unsettled => Unsettled
  end.

(** [await p]: wait until [p] has settled, then resume one tick later.
    A call that throws before its first suspension point is treated like
    a rejected promise; control reaches the same [catch] either way. *)
Definition await {A} (p : Async A) : Async A :=
  fun w => and_then (p w) (fun r w' => Suspended w' (fun w'' => Settled r w'')).

(** Run a task with no other work interleaved at its suspension points. *)
Fixpoint settle {A} (t : Task A) : option (Completion A * World) :=
  match t with
  | Settled r w => Some (r, w)
  | Suspended w resume => settle (resume w)
  | Unsettled => None
  end.

(** [AsyncHandler], [AsyncPlugin], [AsyncHook] *)
Definition AsyncHandler : Type := ref → Async Val.
Definition AsyncPlugin : Type := ref → Async rref → Async rref.
Definition AsyncHook : Type := ref → rref → Async unit.

Record AsyncCode : Type := mkAsyncCode {
  async_handler_fn : fid → AsyncHandler;
  async_plugin_fn : fid → AsyncPlugin;
  async_hook_fn : fid → AsyncHook;
}.

(** ** createAsyncCommandBus

    [register], [use] and [onAfter] are the same code as in the blocking
    bus; only [dispatch] differs. *)

(** A fresh result object, in an [async] function. *)
Definition new_result_async (res : CommandResult) : Async rref :=
  fun w => Settled (Normal (length (results w))) (alloc_result res w).

(** [const execute = async () => { ... await handler(cmd) ... }] *)
Definition execute_async (code : AsyncCode) (handler : option fid) (act : string)
  (cmd : ref) : Async rref :=
  fun w =>
    match handler with
    | None => new_result_async (no_handler act) w
    | Some h =>
        and_then (await (async_handler_fn code h cmd) w)
          (fun r w' =>
             match r with
             | Normal v => new_result_async (result_ok v) w'
             | Thrown e => new_result_async (result_error e) w'
             end)
    end.

(** [plugins.reduceRight((next, plugin) => () => plugin(cmd, next), execute)] *)
Definition chain_async (code : AsyncCode) (ps : list fid) (cmd : ref)
  (execute : Async rref) : Async rref :=
  foldr (fun plugin next => fun w => async_plugin_fn code plugin cmd next w) execute ps.

(** [for (const hook of afterHooks) { try { await hook(cmd, result) } catch ... }] *)
Fixpoint run_hooks_async (code : AsyncCode) (fuel : nat) (i : nat) (cmd : ref)
  (result : rref) (w : World) : Task unit :=
  match fuel with
  | 0 => Unsettled
  | S fuel' =>
      match afterHooks w !! i with
      | None => Settled (Normal ()) w
      | Some hook =>
          and_then (await (async_hook_fn code hook cmd result) w)
            (fun r w' =>
               match r with
               | Normal _ => run_hooks_async code fuel' (S i) cmd result w'
               | Thrown e =>
                   run_hooks_async code fuel' (S i) cmd result
                     (console_error "[vapor-chamber] Hook error:" e w')
               end)
      end
  end.

(** [async function dispatch(action, target, payload)] *)
Definition dispatch_async (code : AsyncCode) (fuel : nat) (act : string)
  (tgt pl : Val) : Async rref :=
  fun w =>
    let '(cmd, w0) := new_command act tgt pl w in
    let handler := handlers w0 !! act in
    and_then
      (await (chain_async code (plugins w0) cmd (execute_async code handler act cmd)) w0)
      (fun r w1 =>
         match r with
         | Thrown e => Settled (Thrown e) w1
         | Normal result =>
             and_then (run_hooks_async code fuel 0 cmd result w1)
               (fun _ w2 => Settled (Normal result) w2)
         end).

(** ** Shapes of client code

    The plugin of the test suite: run [before], call [next()] once, hand
    its result to [after]:
    [(cmd, next) => { before(cmd); const result = next(); return after(cmd, result) }]. *)
Definition around (before : ref → M unit) (after : ref → rref → M rref)
  : Plugin :=
  fun cmd next => bind (before cmd) (fun _ => bind next (fun result => after cmd result)).

(** A plugin that only observes: it calls [next()] once, returns the
    result it got and does not throw; around the call it acts on the world.
    [(cmd, next) => { before(cmd); const result = next(); after(cmd, result);
    return result }]. *)
Definition observer (before : ref → World → World)
  (after : ref → rref → World → World) : Plugin :=
  around (fun cmd w => (Normal (), before cmd w))
         (fun cmd result w => (Normal result, after cmd result w)).

(** The before-parts of a list of plugins, first to last. *)
Fixpoint run_befores (B : fid → ref → M unit) (ps : list fid) (cmd : ref) : M unit :=
  match ps with
  | [] => ret ()
  | p :: ps' => bind (B p cmd) (fun _ => run_befores B ps' cmd)
  end.

(** The after-parts of a list of plugins, first to last, each one
    receiving the result returned by the one before it. *)
Fixpoint run_afters (A : fid → ref → rref → M rref) (ps : list fid)
  (cmd : ref) (result : rref) : M rref :=
  match ps with
  | [] => ret result
  | p :: ps' => bind (A p cmd result) (fun result' => run_afters A ps' cmd result')
  end.

(** A hook that leaves the hook array as it found it. *)
Definition keeps_hooks (code : Code) (cmd : ref) (result : rref) (hook : fid) : Prop :=
  ∀ w, afterHooks (hook_fn code hook cmd result w).2 = afterHooks w.

(** While the hooks [ks] are called one after the other, starting in
    [w], no call changes what [view] shows of the world: with [afterHooks]
    for [view], no hook changes the hook array while the hooks run; with
    the fields of a result object, no hook writes to that object. *)
Fixpoint hooks_leave {A} (view : World → A) (code : Code) (cmd : ref) (result : rref)
  (ks : list fid) (w : World) : Prop :=
  match ks with
  | [] => True
  | k :: ks' =>
      view (call_hook code k cmd result w) = view w
      ∧ hooks_leave view code cmd result ks' (call_hook code k cmd result w)
  end.

Definition bind_async {A B} (m : Async A) (k : A → Async B) : Async B :=
  fun w => and_then (m w)
             (fun r => match r with
                       | Normal a => k a
                       | Thrown e => fun w' => Settled (Thrown e) w'
                       end).

(** [async (cmd, next) => { before(cmd); const result = await next();
    return after(cmd, result) }], where [before] and [after] may suspend. *)
Definition around_async (before : ref → Async unit)
  (after : ref → rref → Async rref) : AsyncPlugin :=
  fun cmd next =>
    bind_async (before cmd)
      (fun _ => bind_async (await next) (fun result => after cmd result)).

(** [await new Promise((r) => setTimeout(r, ms))] *)
Definition sleep : Async unit :=
  fun w => Suspended w (fun w' => Settled (Normal ()) w').

(** ** Logically equivalent clients

    An asynchronous client is logically equivalent to a blocking one when,
    run with nothing interleaved at its suspension points, it settles with
    the completion and the world the blocking one produces; for a plugin,
    whenever the same holds of the continuations they are given. *)
Definition equiv_handler (s : Handler) (a : AsyncHandler) : Prop :=
  ∀ cmd w, settle (a cmd w) = Some (s cmd w).

Definition equiv_hook (s : Hook) (a : AsyncHook) : Prop :=
  ∀ cmd result w, settle (a cmd result w) = Some (s cmd result w).

Definition equiv_next (s : M rref) (a : Async rref) : Prop :=
  ∀ w, settle (a w) = Some (s w).

Definition equiv_plugin (s : Plugin) (a : AsyncPlugin) : Prop :=
  ∀ cmd sn an, equiv_next sn an → ∀ w, settle (a cmd an w) = Some (s cmd sn w).

Record equivalent (scode : Code) (acode : AsyncCode) : Prop := mkEquivalent {
  equivalent_handlers : ∀ h, equiv_handler (handler_fn scode h) (async_handler_fn acode h);
  equivalent_plugins : ∀ p, equiv_plugin (plugin_fn scode p) (async_plugin_fn acode p);
  equivalent_hooks : ∀ k, equiv_hook (hook_fn scode k) (async_hook_fn acode k);
}.

End Model.

Arguments World U : clear implicits.
Arguments Task U A : clear implicits.
Arguments Settled {U A} r w.
Arguments Suspended {U A} w resume.
Arguments Unsettled {U A}.
Arguments Code U : clear implicits.
Arguments AsyncCode U : clear implicits.

(** ** Clients

    The handlers, plugins and hooks of the test suite
    ([tests/command-bus.test.ts]), and a few more that act on the bus while
    a dispatch is running.  The client state is the array [order] of
    markers. *)
Module Demo.

Definition W : Type := World (list string).

(** [order.push(marker)] *)
Definition mark (marker : string) (w : W) : W :=
  set_user (fun order => order ++ [marker]) w.

Definition handler_done : fid := 0.
Definition handler_failing : fid := 1.
Definition handler_second : fid := 2.

Definition handlers_of (h : fid) : Handler :=
  match h with
  | 0 => fun _ w => (Normal (VStr "done"), mark "handler" w)
  | 1 => fun _ w => (Thrown (VError "Handler failed"), w)
  | _ => fun _ w => (Normal (VStr "second"), mark "second" w)
  end.

Definition plugin1 : fid := 0.
Definition plugin2 : fid := 1.
Definition blocker : fid := 2.
Definition rewirer : fid := 3.
Definition rebinder : fid := 4.

Definition once_hook : fid := 2.
Definition late_hook : fid := 3.

(** [rewirer] adds [blocker] and removes [plugin1] before calling
    [next()]; [rebinder] binds the action to another handler;
    [subscriber] registers [late_hook]. *)
Definition before_of (p : fid) : ref → W → W :=
  match p with
  | 0 => fun _ => mark "plugin1-before"
  | 1 => fun _ => mark "plugin2-before"
  | 3 => fun _ w =>
           mark "rewirer-before" (set_plugins (splice_out plugin1) (use blocker w).2)
  | 4 => fun _ w => (register "test.action" handler_second w).2
  | _ => fun _ w => (onAfter late_hook w).2
  end.

Definition after_of (p : fid) : ref → rref → W → W :=
  match p with
  | 0 => fun _ _ => mark "plugin1-after"
  | 1 => fun _ _ => mark "plugin2-after"
  | 3 => fun _ _ => mark "rewirer-after"
  | _ => fun _ _ w => w
  end.

Definition befores_of (p : fid) : ref → M unit :=
  fun cmd w => (Normal (), before_of p cmd w).

Definition afters_of (p : fid) : ref → rref → M rref :=
  fun cmd result w => (Normal result, after_of p cmd result w).

(** [blocker] is the short-circuiting plugin of the test suite,
    [(cmd, next) => ({ ok: false, error: new Error('Blocked') })];
    [sieve] short-circuits only a command whose target is not a string,
    [(cmd, next) => typeof cmd.target === 'string' ? next()
                    : { ok: false, error: new Error('Invalid') }]. *)
Definition plugins_of (p : fid) : Plugin :=
  match p with
  | 2 => fun _ _ w => new_result (result_error (VError "Blocked")) w
  | 6 => fun cmd next w =>
           match target <$> cmds w !! cmd with
           | Some (VStr _) => next w
           | _ => new_result (result_error (VError "Invalid")) w
           end
  | _ => observer (before_of p) (after_of p)
  end.

Definition ok_hook : fid := 0.
Definition failing_hook : fid := 1.
Definition spoiler : fid := 4.
Definition breeder : fid := 5.

(** [ok_hook] pushes a marker that tells whether the result is ok,
    [failing_hook] throws, [once_hook] unsubscribes itself, [spoiler]
    writes [result.ok = !result.ok], [breeder] registers itself once
    more. *)
Definition hooks_of (k : fid) : Hook :=
  match k with
  | 0 => fun _ result w =>
           match results w !! result with
           | Some res => (Normal (), mark (if ok res then "hook-ok" else "hook-error") w)
           | None => (Normal (), w)
           end
  | 1 => fun _ _ w => (Thrown (VError "Hook error"), w)
  | 2 => fun _ _ w => (Normal (), mark "once" (set_afterHooks (splice_out once_hook) w))
  | 3 => fun _ _ w => (Normal (), mark "late" w)
  | 4 => fun _ result w =>
           match results w !! result with
           | Some res =>
               (Normal (),
                set_results (<[result := mkResult (negb (ok res)) (value res) (error res)]>) w)
           | None => (Normal (), w)
           end
  | _ => fun _ _ w => (Normal (), (onAfter breeder w).2)
  end.

Definition code : Code (list string) := mkCode handlers_of plugins_of hooks_of.

(** [createCommandBus()] *)
Definition fresh : W := mkWorld ∅ [] [] [] [] [] [].

(** A bus set up with the given registrations. *)
Definition bus (hs : list (string * fid)) (ps ks : list fid) : W :=
  mkWorld (list_to_map hs) ps ks [] [] [] [].

(** The same clients for the asynchronous bus, each one suspending. *)
Definition async_handlers_of (h : fid) : AsyncHandler :=
  fun cmd => bind_async sleep (fun _ w => Settled (handlers_of h cmd w).1 (handlers_of h cmd w).2).

Definition async_plugins_of (p : fid) : AsyncPlugin :=
  match p with
  | 2 => fun _ _ w => new_result_async (result_error (VError "Blocked")) w
  | 6 => fun cmd next w =>
           match target <$> cmds w !! cmd with
           | Some (VStr _) => next w
           | _ => new_result_async (result_error (VError "Invalid")) w
           end
  | _ => around_async
           (fun cmd => bind_async (fun w => Settled (befores_of p cmd w).1 (befores_of p cmd w).2)
                         (fun _ => sleep))
           (fun cmd result w =>
              Settled (afters_of p cmd result w).1 (afters_of p cmd result w).2)
  end.

Definition async_hooks_of (k : fid) : AsyncHook :=
  fun cmd result =>
    bind_async sleep
      (fun _ w => Settled (hooks_of k cmd result w).1 (hooks_of k cmd result w).2).

Definition async_code : AsyncCode (list string) :=
  mkAsyncCode async_handlers_of async_plugins_of async_hooks_of.


(** [code] with every handler replaced by code that throws. *)
Definition without_handlers : Code (list string) :=
  mkCode (fun _ _ w => (Thrown (VError "must not run"), w)) plugins_of hooks_of.

(** [dispatch('test.action', {})] *)
Definition dispatch_test (fuel : nat) (w : W) : option (Completion rref * W) :=
  dispatch code fuel "test.action" (VObj FNil) VUndefined w.

(** The markers pushed to [order] by the end of a dispatch. *)
Definition order_of (r : option (Completion rref * W)) : option (list string) :=
  (fun x => user x.2) <$> r.

End Demo.

(** ** Cells

    A signal of [chamber.ts] (the fallback of [getSignalFn], whose
    [listeners] array is never added to) and a variable captured by a
    plugin closure are cells of the client state, read and written through
    a getter and a setter. *)
Section Cells.

Context {U : Type}.

Record Cell (A : Type) : Type := mkCell {
  peek : U → A;
  poke : A → U → U;
}.
Arguments peek {A} c u.
Arguments poke {A} c a u.

(** [s.value] *)
Definition read {A} (s : Cell A) (w : World U) : A := peek s (user w).

(** [s.value = a] *)
Definition write {A} (s : Cell A) (a : A) (w : World U) : World U :=
  set_user (poke s a) w.

(** Reading a cell gives back what was last written to it. *)
Definition holds_its_value {A} (s : Cell A) : Prop :=
  ∀ a u, peek s (poke s a u) = a.

(** Writing to [t] is not seen through [s]. *)
Definition apart {A B} (s : Cell A) (t : Cell B) : Prop :=
  ∀ b u, peek s (poke t b u) = peek s u.

(** [cmd.action], [cmd.target]: the fields of the object behind a
    reference.  Every reference handed out by [dispatch] is allocated; for
    any other number the field reads as [None]. *)
Definition action_of (cmd : ref) (w : World U) : option string :=
  action <$> cmds w !! cmd.

(** [result.ok], [result.error]: the fields of the object behind a
    reference.  Every reference handed on by the bus is allocated; for any
    other number [ok] reads as [false] and [error] as missing. *)
Definition ok_of (result : rref) (w : World U) : bool :=
  default false (ok <$> results w !! result).

Definition error_of (result : rref) (w : World U) : option Val :=
  results w !! result ≫= error.

(** [xs.pop()]: the array without its last element, and that element. *)
Definition pop (xs : list ref) : option (list ref * ref) :=
  match last xs with
  | Some x => Some (removelast xs, x)
  | None => None
  end.

(** [xs.push(x); if (xs.length > maxSize) xs.shift()] *)
Definition push_bounded (maxSize : Z) (xs : list ref) (x : ref) : list ref :=
  if (maxSize <? Z.of_nat (length (xs ++ [x])))%Z then tail (xs ++ [x]) else xs ++ [x].

End Cells.

Arguments Cell U A : clear implicits.
Arguments mkCell {U A} peek poke.
Arguments peek {U A} c u.
Arguments poke {U A} c a u.

(** ** chamber.ts: the bus behind reactive state

    [useCommand], [useCommandState] and [useCommandHistory] take the bus
    from [getCommandBus()] once, when they are called; the world is that
    bus. *)
Module Chamber.

Section Chamber.

Context {U : Type}.

(** [result.error ?? null] *)
Definition or_null (e : option Val) : option Val :=
  match e with
  | None | Some VUndefined => None
  | Some v => Some v
  end.

(** The [dispatch] returned by [useCommand]. *)
Definition useCommand (loading : Cell U bool) (lastError : Cell U (option Val))
  (code : Code U) (fuel : nat) (act : string) (tgt pl : Val) (w : World U)
  : option (Completion rref * World U) :=
  let w1 := write loading true w in
  let w2 := write lastError None w1 in
  match dispatch code fuel act tgt pl w2 with
  | Some (Normal result, w3) =>
      let w4 := write loading false w3 in
      let w5 := if ok_of result w4 then w4
                else write lastError (or_null (error_of result w4)) w4 in
      Some (Normal result, w5)
  | Some (Thrown e, w3) => Some (Thrown e, w3)
  | None => None
  end.

(** The handler [useCommandState] registers for one entry of [handlers]:
    [(cmd) => { state.value = handler(state.value, cmd); return state.value }]. *)
Definition state_handler (state : Cell U Val) (handler : Val → ref → M Val) : Handler :=
  fun cmd w =>
    match handler (read state w) cmd w with
    | (Normal s, w') => (Normal (read state (write state s w')), write state s w')
    | (Thrown e, w') => (Thrown e, w')
    end.

(** [for (const [action, handler] of Object.entries(handlers))
    unregisters.push(bus.register(action, ...))]; each entry comes with the
    identity of the closure made for it. *)
Fixpoint register_all (entries : list (string * fid)) (w : World U)
  : list (World U → World U) * World U :=
  match entries with
  | [] => ([], w)
  | (act, h) :: entries' =>
      let '(unregister, w1) := register act h w in
      let '(unregisters, w2) := register_all entries' w1 in
      (unregister :: unregisters, w2)
  end.

(** [useCommandState(initial, handlers)]: the [dispose] closure
    ([unregisters.forEach(fn => fn())]) and the bus after the setup. *)
Definition useCommandState (state : Cell U Val) (initial : Val)
  (entries : list (string * fid)) (w : World U) : (World U → World U) * World U :=
  let '(unregisters, w1) := register_all entries (write state initial w) in
  (fun w' => foldl (fun w'' unregister => unregister w'') w' unregisters, w1).

(** The four signals of [useCommandHistory]. *)
Record History : Type := mkHistory {
  past : list ref;
  future : list ref;
  canUndo : bool;
  canRedo : bool;
}.

(** [signal([])], [signal([])], [signal(false)], [signal(false)] *)
Definition no_history : History := mkHistory [] [] false false.

(** The body of the hook once the command is to be tracked. *)
Definition track (maxSize : Z) (hist : Cell U History) (cmd : ref) (w : World U)
  : World U :=
  write hist (mkHistory (push_bounded maxSize (past (read hist w)) cmd) [] true false) w.

(** The hook [useCommandHistory] registers with [bus.onAfter]:
    [if (result.ok && (!filter || filter(cmd))) { ... }]. *)
Definition history_hook (maxSize : Z) (filter : option (ref → M bool))
  (hist : Cell U History) : Hook :=
  fun cmd result w =>
    if ok_of result w then
      match filter with
      | None => (Normal (), track maxSize hist cmd w)
      | Some f =>
          match f cmd w with
          | (Normal true, w') => (Normal (), track maxSize hist cmd w')
          | (Normal false, w') => (Normal (), w')
          | (Thrown e, w') => (Thrown e, w')
          end
      end
    else (Normal (), w).

(** [undo()] *)
Definition undo (hist : Cell U History) (w : World U) : option ref * World U :=
  match pop (past (read hist w)) with
  | Some (p, cmd) =>
      (Some cmd,
       write hist (mkHistory p (future (read hist w) ++ [cmd])
                     (0 <? length p) true) w)
  | None => (None, w)
  end.

(** [redo()] *)
Definition redo (hist : Cell U History) (w : World U) : option ref * World U :=
  match pop (future (read hist w)) with
  | Some (f, cmd) =>
      (Some cmd,
       write hist (mkHistory (past (read hist w) ++ [cmd]) f
                     true (0 <? length f)) w)
  | None => (None, w)
  end.

(** [clear()] *)
Definition clear (hist : Cell U History) (w : World U) : World U :=
  write hist (mkHistory [] [] false false) w.

End Chamber.

End Chamber.

(** ** plugins.ts: the built-in plugins *)
Module Plugins.

Section Plugins.

Context {U : Type}.

(** [validator(rules)].  [rules a] is the value of [rules[a]], [None]
    when it is [undefined]; a rule returns an error message or [null]. *)
Definition validator (rules : string → option (ref → M (option string))) : @Plugin U :=
  fun cmd next (w : World U) =>
    match action_of cmd w with
    | None => next w
    | Some act =>
        match rules act with
        | None => next w
        | Some rule =>
            match rule cmd w with
            | (Normal (Some message), w') =>
                if decide (message = "") then next w'
                else new_result (result_error (VError message)) w'
            | (Normal None, w') => next w'
            | (Thrown e, w') => (Thrown e, w')
            end
        end
    end.

(** The arrays [past] and [future] captured by the closures of [history]. *)
Record Stacks : Type := mkStacks {
  past : list ref;
  future : list ref;
}.

(** [export interface HistoryState] *)
Record HistoryState : Type := mkHistoryState {
  state_past : list ref;
  state_future : list ref;
  canUndo : bool;
  canRedo : bool;
}.

(** [past.push(cmd); if (past.length > maxSize) past.shift(); future.length = 0] *)
Definition track (maxSize : Z) (st : Cell U Stacks) (cmd : ref) (w : World U) : World U :=
  write st (mkStacks (push_bounded maxSize (past (read st w)) cmd) []) w.

(** The plugin returned by [history(options)]. *)
Definition history (maxSize : Z) (filter : option (ref → M bool)) (st : Cell U Stacks)
  : @Plugin U :=
  fun cmd next (w : World U) =>
    match next w with
    | (Normal result, w1) =>
        if ok_of result w1 then
          match filter with
          | None => (Normal result, track maxSize st cmd w1)
          | Some f =>
              match f cmd w1 with
              | (Normal true, w2) => (Normal result, track maxSize st cmd w2)
              | (Normal false, w2) => (Normal result, w2)
              | (Thrown e, w2) => (Thrown e, w2)
              end
          end
        else (Normal result, w1)
    | (Thrown e, w1) => (Thrown e, w1)
    end.

(** [getState()] *)
Definition getState (st : Cell U Stacks) (w : World U) : HistoryState :=
  mkHistoryState (past (read st w)) (future (read st w))
    (0 <? length (past (read st w))) (0 <? length (future (read st w))).

(** [undo()]: [const cmd = past.pop(); if (cmd) future.push(cmd); return cmd] *)
Definition undo (st : Cell U Stacks) (w : World U) : option ref * World U :=
  match pop (past (read st w)) with
  | Some (p, cmd) => (Some cmd, write st (mkStacks p (future (read st w) ++ [cmd])) w)
  | None => (None, w)
  end.

(** [redo()]: [const cmd = future.pop(); if (cmd) past.push(cmd); return cmd] *)
Definition redo (st : Cell U Stacks) (w : World U) : option ref * World U :=
  match pop (future (read st w)) with
  | Some (f, cmd) => (Some cmd, write st (mkStacks (past (read st w) ++ [cmd]) f) w)
  | None => (None, w)
  end.

(** [clear()]: [past.length = 0; future.length = 0] *)
Definition clear (st : Cell U Stacks) (w : World U) : World U :=
  write st (mkStacks [] []) w.

(** [`${cmd.action}:${JSON.stringify(cmd.target)}`]; [stringify] stands
    for [JSON.stringify]. *)
Definition throttle_key (stringify : Val → string) (c : Command) : string :=
  action c +:+ ":" +:+ stringify (target c).

(** [{ throttled: true, key, retryIn }] *)
Definition throttled (key : string) (retryIn : Z) : Val :=
  VObj (FCons "throttled" (VBool true)
       (FCons "key" (VStr key)
       (FCons "retryIn" (VNum retryIn) FNil))).

(** [throttle(actions, wait)].  [clock] is the reading of [Date.now()],
    in whole milliseconds like [wait]; [lastRun] is the captured map. *)
Definition throttle (actions : list string) (wait : Z) (clock : World U → Z)
  (stringify : Val → string) (lastRun : Cell U (gmap string Z)) : @Plugin U :=
  fun cmd next (w : World U) =>
    match cmds w !! cmd with
    | None => next w
    | Some c =>
        if decide (action c ∈ actions) then
          let key := throttle_key stringify c in
          let now := clock w in
          let last := default 0%Z (read lastRun w !! key) in
          if (wait <=? now - last)%Z then
            next (write lastRun (<[key := now]> (read lastRun w)) w)
          else new_result (result_ok (throttled key (wait - (now - last)))) w
        else next w
    end.

End Plugins.

End Plugins.

(** ** examples/custom-plugins.ts *)
Module Examples.

Section Examples.

Context {U : Type}.

(** [authGuardPlugin(isAuthenticated, protectedPrefixes)] *)
Definition authGuardPlugin (isAuthenticated : M bool) (protectedPrefixes : list string)
  : @Plugin U :=
  fun cmd next (w : World U) =>
    match action_of cmd w with
    | None => next w
    | Some act =>
        if existsb (fun p => String.prefix p act) protectedPrefixes then
          match isAuthenticated w with
          | (Normal true, w') => next w'
          | (Normal false, w') =>
              new_result
                (result_error
                   (VError ("Unauthorized: " +:+ act +:+ " requires authentication")))
                w'
          | (Thrown e, w') => (Thrown e, w')
          end
        else next w
    end.

(** [while (requests.length > 0 && requests[0] < limit) requests.shift()] *)
Fixpoint shift_older (limit : Z) (requests : list Z) : list Z :=
  match requests with
  | [] => []
  | t :: requests' =>
      if (t <? limit)%Z then shift_older limit requests' else requests
  end.

(** [rateLimiterPlugin(maxRequests, windowMs)], for whole numbers
    [maxRequests] and [windowMs]; [requests] is the captured array of the
    times at which a command was let through, and [show] stands for the
    conversion of a number to a string in a template literal. *)
Definition rateLimiterPlugin (show : Z → string) (maxRequests : Z) (windowMs : Z)
  (clock : World U → Z) (requests : Cell U (list Z)) : @Plugin U :=
  fun cmd next (w : World U) =>
    let now := clock w in
    let kept := shift_older (now - windowMs) (read requests w) in
    if (maxRequests <=? Z.of_nat (length kept))%Z then
      new_result
        (result_error
           (VError ("Rate limit exceeded. Max " +:+ show maxRequests
                    +:+ " requests per " +:+ show windowMs +:+ "ms")))
        (write requests kept w)
    else next (write requests (kept ++ [now]) w).

(** What [transform(cmd)] returns: a Command whose [payload] may be
    missing. *)
Record Transformed : Type := mkTransformed {
  new_action : string;
  new_target : Val;
  new_payload : option Val;
}.

(** [Object.assign(cmd, transformed)] *)
Definition assign (cmd : ref) (t : Transformed) (w : World U) : World U :=
  match cmds w !! cmd with
  | None => w
  | Some c =>
      set_cmds
        (<[cmd := mkCommand (new_action t) (new_target t)
                    (default (payload c) (new_payload t))]>) w
  end.

(** [transformPlugin(transforms)]; [transforms a] is the value of
    [transforms[a]]. *)
Definition transformPlugin (transforms : string → option (ref → M Transformed))
  : @Plugin U :=
  fun cmd next (w : World U) =>
    match action_of cmd w with
    | None => next w
    | Some act =>
        match transforms act with
        | None => next w
        | Some transform =>
            match transform cmd w with
            | (Normal t, w') => next (assign cmd t w')
            | (Thrown e, w') => (Thrown e, w')
            end
        end
    end.

End Examples.

End Examples.

(** ** Clients of the reactive layer and of the plugins

    A client state with a cell for each signal and captured variable, and
    clients after those of [tests/plugins.test.ts] and of the examples. *)
Module Lab.

Record State : Type := mkState {
  order : list string;
  loading : bool;
  lastError : option Val;
  counter : Val;
  hist : Chamber.History;
  stacks : Plugins.Stacks;
  lastRun : gmap string Z;
  requests : list Z;
  now : Z;
  loggedIn : bool;
}.

Definition W : Type := World State.

Definition loading_cell : Cell State bool :=
  mkCell loading
    (fun a u => mkState (order u) a (lastError u) (counter u) (hist u) (stacks u)
                  (lastRun u) (requests u) (now u) (loggedIn u)).

Definition lastError_cell : Cell State (option Val) :=
  mkCell lastError
    (fun a u => mkState (order u) (loading u) a (counter u) (hist u) (stacks u)
                  (lastRun u) (requests u) (now u) (loggedIn u)).

Definition counter_cell : Cell State Val :=
  mkCell counter
    (fun a u => mkState (order u) (loading u) (lastError u) a (hist u) (stacks u)
                  (lastRun u) (requests u) (now u) (loggedIn u)).

Definition hist_cell : Cell State Chamber.History :=
  mkCell hist
    (fun a u => mkState (order u) (loading u) (lastError u) (counter u) a (stacks u)
                  (lastRun u) (requests u) (now u) (loggedIn u)).

Definition stacks_cell : Cell State Plugins.Stacks :=
  mkCell stacks
    (fun a u => mkState (order u) (loading u) (lastError u) (counter u) (hist u) a
                  (lastRun u) (requests u) (now u) (loggedIn u)).

Definition lastRun_cell : Cell State (gmap string Z) :=
  mkCell lastRun
    (fun a u => mkState (order u) (loading u) (lastError u) (counter u) (hist u)
                  (stacks u) a (requests u) (now u) (loggedIn u)).

Definition requests_cell : Cell State (list Z) :=
  mkCell requests
    (fun a u => mkState (order u) (loading u) (lastError u) (counter u) (hist u)
                  (stacks u) (lastRun u) a (now u) (loggedIn u)).

(** [Date.now()] *)
Definition clock (w : W) : Z := now (user w).

(** The state before anything has run, at a given time. *)
Definition at_time (t : Z) : State :=
  mkState [] false None (VNum 0) Chamber.no_history (Plugins.mkStacks [] []) ∅ [] t false.

Definition bus (hs : list (string * fid)) (ps ks : list fid) (u : State) : W :=
  mkWorld (list_to_map hs) ps ks [] [] [] u.

(** [(s) => s + 1] on a number *)
Definition increment : Val → ref → @M State Val :=
  fun s _ (w : W) =>
    match s with
    | VNum z => (Normal (VNum (z + 1)), w)
    | _ => (Thrown (VError "not a number"), w)
    end.

Definition done : fid := 0.
Definition failing : fid := 1.
Definition counting : fid := 2.

Definition handlers_of (h : fid) : @Handler State :=
  match h with
  | 0 => fun _ (w : W) => (Normal (VStr "done"), w)
  | 1 => fun _ (w : W) => (Thrown (VError "Test error"), w)
  | _ => Chamber.state_handler counter_cell increment
  end.

(** A rule in the manner of the form example: the target must be a
    string. *)
Definition rules (act : string) : option (ref → @M State (option string)) :=
  if decide (act = "form.login") then
    Some (fun cmd (w : W) =>
            (Normal match target <$> cmds w !! cmd with
                    | Some (VStr _) => None
                    | _ => Some "Invalid email address"
                    end, w))
  else None.

(** A stand-in for [JSON.stringify] on the values used here. *)
Definition json (v : Val) : string :=
  match v with
  | VNum z => pretty z
  | VObj FNil => "{}"
  | _ => "null"
  end.

(** How a template literal prints the whole numbers used here (3 and
    1000): their decimal digits. *)
Definition show_number (z : Z) : string := pretty z.

(** [() => authenticated] *)
Definition isAuthenticated : @M State bool := fun (w : W) => (Normal (loggedIn (user w)), w).

(** A transform that files a legacy action under its new name. *)
Definition transforms (act : string) : option (ref → @M State Examples.Transformed) :=
  if decide (act = "legacy.add") then
    Some (fun cmd (w : W) =>
            (Normal (Examples.mkTransformed "item.add"
                       (default VUndefined (target <$> cmds w !! cmd))
                       (Some (VStr "migrated"))), w))
  else None.

Definition breaking : fid := 0.
Definition watching : fid := 1.
Definition validating : fid := 2.
Definition throttling : fid := 3.
Definition guarding : fid := 4.
Definition limiting : fid := 5.
Definition transforming : fid := 6.

Definition plugins_of (p : fid) : @Plugin State :=
  match p with
  | 0 => around (fun _ (w : W) => (Thrown (VError "plugin broke"), w))
                (fun _ result (w : W) => (Normal result, w))
  | 1 => observer (fun _ (w : W) => w) (fun _ _ (w : W) => w)
  | 2 => Plugins.validator rules
  | 3 => Plugins.throttle ["search"] 100 clock json lastRun_cell
  | 4 => Examples.authGuardPlugin isAuthenticated ["admin."; "user.delete"]
  | 5 => Examples.rateLimiterPlugin show_number 3 1000 clock requests_cell
  | 6 => Examples.transformPlugin transforms
  | _ => Plugins.history 2 None stacks_cell
  end.

Definition hooks_of (k : fid) : @Hook State := Chamber.history_hook 2 None hist_cell.

Definition code : Code State := mkCode handlers_of plugins_of hooks_of.

(** The same handlers as promises. *)
Definition async_code : AsyncCode State :=
  mkAsyncCode
    (fun h cmd =>
       bind_async sleep (fun _ (w : W) => Settled (handlers_of h cmd w).1 (handlers_of h cmd w).2))
    (fun p cmd next (w : W) => Settled (Thrown (VError "plugin broke")) w)
    (fun k cmd result (w : W) => Settled (hooks_of k cmd result w).1 (hooks_of k cmd result w).2).

End Lab.

(** * Properties *)

Section ChainFacts.

Context {U : Type}.
Implicit Types (w : World U) (code : Code U) (ps : list fid).

Lemma chain_cons code p ps cmd ex w :
  chain code (p :: ps) cmd ex w = plugin_fn code p cmd (chain code ps cmd ex) w.
Proof. reflexivity. Qed.

Lemma chain_app code ps1 ps2 cmd ex :
  chain code (ps1 ++ ps2) cmd ex = chain code ps1 cmd (chain code ps2 cmd ex).
Proof. unfold chain. apply foldr_app. Qed.

(** Only the code of the plugins in the list matters to the chain. *)
Lemma chain_same_plugins code code' ps cmd ex :
  Forall (fun p => plugin_fn code' p = plugin_fn code p) ps →
  chain code' ps cmd ex = chain code ps cmd ex.
Proof.
  induction 1 as [|p ps Hp _ IH]; [reflexivity|].
  unfold chain in *. simpl. rewrite Hp, IH. reflexivity.
Qed.

Lemma execute_same_handler code code' handler act cmd :
  (∀ h, handler = Some h → handler_fn code' h = handler_fn code h) →
  execute code' handler act cmd = execute code handler act cmd.
Proof.
  intros Hh. unfold execute. destruct handler as [h|]; [|reflexivity].
  rewrite (Hh h eq_refl). reflexivity.
Qed.

(** Sequencing is associative. *)
Lemma bind_assoc {A B C} (m : M A) (k : A → M B) (k' : B → M C) w :
  bind (bind m k) k' w = bind m (fun a => bind (k a) k') w.
Proof. unfold bind. destruct (m w) as [[a|e] w']; reflexivity. Qed.

Lemma bind_ext {A B} (m : M A) (k k' : A → M B) w :
  (∀ a w', k a w' = k' a w') → bind m k w = bind m k' w.
Proof. intros H. unfold bind. destruct (m w) as [[a|e] w']; auto. Qed.

Lemma bind_ext_l {A B} (m m' : M A) (k : A → M B) w :
  (∀ w', m w' = m' w') → bind m k w = bind m' k w.
Proof. intros H. unfold bind. rewrite H. reflexivity. Qed.

Lemma run_afters_app (A : fid → ref → rref → M rref) ps1 ps2 cmd r w :
  run_afters A (ps1 ++ ps2) cmd r w
  = bind (run_afters A ps1 cmd r) (fun r' => run_afters A ps2 cmd r') w.
Proof.
  revert r w. induction ps1 as [|p ps1 IH]; intros r w; simpl.
  - reflexivity.
  - rewrite bind_assoc. apply bind_ext. intros; apply IH.
Qed.

(** A chain of [around] plugins runs the before-parts in the order of
    the list, the innermost step, then the after-parts in the reverse
    order. *)
Lemma chain_around code B A ps cmd ex w :
  Forall (fun p => plugin_fn code p = around (B p) (A p)) ps →
  chain code ps cmd ex w
  = bind (run_befores B ps cmd)
      (fun _ => bind ex (fun r => run_afters A (rev ps) cmd r)) w.
Proof.
  intros Hps. revert w. induction Hps as [|p ps Hp _ IH]; intros w.
  - simpl. unfold bind, ret. simpl. destruct (ex w) as [[r|e] w']; reflexivity.
  - rewrite chain_cons, Hp. unfold around. simpl.
    rewrite bind_assoc. apply bind_ext. intros _ w1.
    rewrite (bind_ext_l _ _ _ _ IH).
    rewrite bind_assoc. apply bind_ext. intros _ w2.
    rewrite bind_assoc. apply bind_ext. intros r w3.
    rewrite run_afters_app. apply bind_ext. intros r' w4.
    simpl. unfold bind, ret. destruct (A p cmd r' w4) as [[r''|e] w5]; reflexivity.
Qed.

(** A chain of observers brings the innermost step to the world left by
    their before-parts and hands its result back unchanged. *)
Lemma chain_observers code (B : fid → ref → World U → World U)
  (A : fid → ref → rref → World U → World U) ps cmd ex w :
  Forall (fun p => plugin_fn code p = observer (B p) (A p)) ps →
  chain code ps cmd ex w
  = match ex (foldl (fun w' p => B p cmd w') w ps) with
    | (Normal r, w1) => (Normal r, foldr (fun p w' => A p cmd r w') w1 ps)
    | (Thrown e, w1) => (Thrown e, w1)
    end.
Proof.
  intros Hps. revert w. induction Hps as [|p ps Hp _ IH]; intros w.
  - simpl. destruct (ex w) as [[r|e] w1]; reflexivity.
  - rewrite chain_cons, Hp. unfold observer, around, bind. simpl.
    rewrite IH.
    destruct (ex (foldl (fun w' p => B p cmd w') (B p cmd w) ps)) as [[r|e] w1];
      reflexivity.
Qed.


Lemma lookup_alloc_result (res : CommandResult) w :
  results (alloc_result res w) !! length (results w) = Some res.
Proof.
  unfold alloc_result, set_results. simpl.
  rewrite lookup_app_r by lia. rewrite Nat.sub_diag. reflexivity.
Qed.

End ChainFacts.

Section HookFacts.

Context {U : Type}.
Implicit Types (w : World U) (code : Code U).

Lemma call_hook_keeps code cmd result hook w :
  keeps_hooks code cmd result hook →
  afterHooks (call_hook code hook cmd result w) = afterHooks w.
Proof.
  intros Hk. unfold call_hook. specialize (Hk w).
  destruct (hook_fn code hook cmd result w) as [[[]|e] w']; simpl in *; exact Hk.
Qed.



Lemma run_hooks_same_code code code' fuel i cmd result w :
  hook_fn code' = hook_fn code →
  run_hooks code' fuel i cmd result w = run_hooks code fuel i cmd result w.
Proof.
  intros Hh. revert i w. induction fuel as [|fuel IH]; intros i w; [reflexivity|].
  simpl. destruct (afterHooks w !! i) as [hook|]; [|reflexivity].
  unfold call_hook. rewrite Hh. apply IH.
Qed.

Lemma notify_same_code code code' fuel cmd r :
  hook_fn code' = hook_fn code →
  notify code' fuel cmd r = notify code fuel cmd r.
Proof.
  intros Hh. destruct r as [[result|e] w1]; simpl; [|reflexivity].
  rewrite (run_hooks_same_code code code' _ _ _ _ _ Hh). reflexivity.
Qed.

(** The same when it is only known that no call of this run changes the
    hook array. *)
Lemma run_hooks_left_alone code fuel i cmd result w :
  hooks_leave afterHooks code cmd result (drop i (afterHooks w)) w →
  length (afterHooks w) - i < fuel →
  run_hooks code fuel i cmd result w
  = Some (foldl (fun w' hook => call_hook code hook cmd result w') w
            (drop i (afterHooks w))).
Proof.
  revert i w. induction fuel as [|fuel IH]; intros i w Hst Hfuel; [lia|].
  simpl. destruct (afterHooks w !! i) as [hook|] eqn:Hi.
  - rewrite (drop_S _ _ _ Hi) in Hst. destruct Hst as [Hsame Hst].
    apply lookup_lt_Some in Hi as Hlt.
    rewrite IH; [| rewrite Hsame; exact Hst | rewrite Hsame; lia].
    rewrite Hsame. rewrite (drop_S _ _ _ Hi). reflexivity.
  - apply lookup_ge_None in Hi. rewrite drop_ge by lia. reflexivity.
Qed.

(** What no call changes is the same after all the calls. *)
Lemma hooks_leave_fold {A} (view : World U → A) code cmd result ks w :
  hooks_leave view code cmd result ks w →
  view (foldl (fun w' hook => call_hook code hook cmd result w') w ks) = view w.
Proof.
  revert w. induction ks as [|k ks IH]; intros w; simpl; [reflexivity|].
  intros [Hk Hks]. rewrite (IH _ Hks). exact Hk.
Qed.

Lemma keeps_hooks_leave code cmd result ks w :
  Forall (keeps_hooks code cmd result) ks →
  hooks_leave afterHooks code cmd result ks w.
Proof.
  intros Hks. revert w. induction Hks as [|k ks Hk _ IH]; intros w; simpl; [exact I|].
  split; [apply call_hook_keeps, Hk|apply IH].
Qed.

(** Whatever the hooks do, [notify] hands back the completion it got: the
    error thrown, or the reference to the result object. *)
Lemma notify_keeps_completion code fuel cmd c w1 out w2 :
  notify code fuel cmd (c, w1) = Some (out, w2) → out = c.
Proof.
  destruct c as [result|e]; simpl.
  - destruct (run_hooks code fuel 0 cmd result w1); congruence.
  - congruence.
Qed.

End HookFacts.

Section Dispatch.

Context {U : Type}.
Implicit Types (w : World U) (code : Code U).

(** The hook phase when no hook changes the hook array while the hooks
    run: every hook is called, first to last, and the reference is handed
    back. *)
Lemma notify_left_alone code fuel cmd result w1 :
  hooks_leave afterHooks code cmd result (afterHooks w1) w1 →
  length (afterHooks w1) < fuel →
  notify code fuel cmd (Normal result, w1)
  = Some (Normal result,
          foldl (fun w' hook => call_hook code hook cmd result w') w1 (afterHooks w1)).
Proof.
  intros Hst Hfuel. simpl.
  rewrite run_hooks_left_alone by (rewrite ?drop_0; assumption || lia).
  rewrite drop_0. reflexivity.
Qed.

(** C1. With plugins P1 (registered first) and P2 (registered second) and
    a handler H bound to the action, a dispatch runs P1-before, P2-before,
    H, P2-after, P1-after, in this order: the chain wraps the innermost
    step with the plugins from the last registered to the first, so P1 is
    outermost, is the first to see the command and the last to see the
    result.  Sequencing is [bind]; [notify] is the hook phase that follows
    the chain. *)
Theorem two_plugins_wrap_the_handler code fuel act tgt pl w p1 p2 h b1 a1 b2 a2 :
  plugins w = [p1; p2] →
  handlers w !! act = Some h →
  plugin_fn code p1 = around b1 a1 →
  plugin_fn code p2 = around b2 a2 →
  let '(cmd, w0) := new_command act tgt pl w in
  dispatch code fuel act tgt pl w
  = notify code fuel cmd
      (bind (b1 cmd) (fun _ =>
       bind (b2 cmd) (fun _ =>
       bind (execute code (Some h) act cmd) (fun r =>
       bind (a2 cmd r) (fun r2 => a1 cmd r2)))) w0).
Proof.
  intros Hps Hh H1 H2. unfold dispatch, new_command. simpl.
  rewrite Hps, Hh. f_equal.
  rewrite !chain_cons, H1. unfold around.
  apply bind_ext. intros _ w1.
  rewrite (bind_ext_l _ (around b2 a2 (length (cmds w))
                            (execute code (Some h) act (length (cmds w)))))
    by (intros w'; rewrite chain_cons, H2; reflexivity).
  unfold around. rewrite bind_assoc. apply bind_ext. intros _ w2.
  rewrite bind_assoc. reflexivity.
Qed.

(** C2 (amended). A handler is bound to the action; the registered
    plugins, if any, only observe and have left the result object as the
    innermost step made it; and, while the hooks run, no hook changes the
    hook array or writes to the result object.  Then dispatch returns, and
    what it returns is the object made by the innermost step, which reads
    [{ok: true, value: v}] if the handler returned [v] and
    [{ok: false, error: e}] if it threw [e]: the failure does not leave
    dispatch.  The handler runs in the world [wb] left by the before-parts
    of the plugins; [w1] is the world when the chain has resolved and [w2]
    the world when every hook has been called. *)
Theorem handler_outcome_becomes_the_result code fuel act tgt pl w h B A :
  Forall (fun p => plugin_fn code p = observer (B p) (A p)) (plugins w) →
  handlers w !! act = Some h →
  let '(cmd, w0) := new_command act tgt pl w in
  let wb := foldl (fun w' p => B p cmd w') w0 (plugins w) in
  ∀ x wh,
    handler_fn code h cmd wb = (x, wh) →
    let r := length (results wh) in
    let res := match x with
               | Normal v => {| ok := true; value := Some v; error := None |}
               | Thrown e => {| ok := false; value := None; error := Some e |}
               end in
    let w1 := foldr (fun p w' => A p cmd r w') (alloc_result res wh) (plugins w) in
    let w2 := foldl (fun w' hook => call_hook code hook cmd r w') w1 (afterHooks w1) in
    results w1 !! r = Some res →
    hooks_leave afterHooks code cmd r (afterHooks w1) w1 →
    hooks_leave (fun w' => results w' !! r) code cmd r (afterHooks w1) w1 →
    length (afterHooks w1) < fuel →
    dispatch code fuel act tgt pl w = Some (Normal r, w2)
    ∧ results w2 !! r = Some res.
Proof.
  intros Hps Hh. unfold dispatch, new_command. cbn [fst snd].
  intros x wh Hcall Hres Hkeep Hsame Hfuel.
  replace (handlers (set_cmds _ w) !! act) with (Some h) by (symmetry; exact Hh).
  replace (plugins (set_cmds (fun cs => cs ++ [mkCommand act tgt pl]) w))
    with (plugins w) by reflexivity.
  rewrite (chain_observers code B A _ _ _ _ Hps). unfold execute.
  rewrite Hcall.
  destruct x as [v|e]; unfold new_result;
    (rewrite notify_left_alone by assumption; split; [reflexivity|];
     rewrite (hooks_leave_fold (fun w' => results w' !! _)) by assumption;
     exact Hres).
Qed.

(** C3 (amended). No handler is bound to the action.  The innermost step
    makes the object [{ok: false, error: new Error("No handler: " + action)}]
    in whatever world it is run, changing nothing else.  When the
    registered plugins, if any, only observe and have left that object as
    it was made, and, while the hooks run, no hook changes the hook array
    or writes to the object, dispatch returns, and what it returns is that
    object, reading as it was made.  With plugins and hooks of any kind,
    the code of no handler is run: replacing the code of every handler
    changes nothing. *)
Theorem missing_handler_is_reported code fuel act tgt pl w :
  handlers w !! act = None →
  let '(cmd, w0) := new_command act tgt pl w in
  (∀ w', execute code (handlers w0 !! act) act cmd w'
         = (Normal (length (results w')),
            alloc_result {| ok := false; value := None;
                            error := Some (VError ("No handler: " +:+ act)) |} w'))
  ∧ (∀ B A,
       Forall (fun p => plugin_fn code p = observer (B p) (A p)) (plugins w) →
       let wb := foldl (fun w' p => B p cmd w') w0 (plugins w) in
       let r := length (results wb) in
       let w1 := foldr (fun p w' => A p cmd r w')
                   (alloc_result (no_handler act) wb) (plugins w) in
       let w2 := foldl (fun w' hook => call_hook code hook cmd r w') w1 (afterHooks w1) in
       results w1 !! r = Some (no_handler act) →
       hooks_leave afterHooks code cmd r (afterHooks w1) w1 →
       hooks_leave (fun w' => results w' !! r) code cmd r (afterHooks w1) w1 →
       length (afterHooks w1) < fuel →
       dispatch code fuel act tgt pl w = Some (Normal r, w2)
       ∧ results w2 !! r
         = Some {| ok := false; value := None;
                   error := Some (VError ("No handler: " +:+ act)) |})
  ∧ (∀ code', plugin_fn code' = plugin_fn code → hook_fn code' = hook_fn code →
     dispatch code' fuel act tgt pl w = dispatch code fuel act tgt pl w).
Proof.
  intros Hh. unfold dispatch, new_command. cbn [fst snd].
  replace (handlers (set_cmds (fun cs => cs ++ [mkCommand act tgt pl]) w) !! act)
    with (@None fid) by (symmetry; exact Hh).
  replace (plugins (set_cmds (fun cs => cs ++ [mkCommand act tgt pl]) w))
    with (plugins w) by reflexivity.
  split; [reflexivity|]. split.
  - intros B A Hps Hres Hkeep Hsame Hfuel.
    rewrite (chain_observers code B A _ _ _ _ Hps). unfold execute, new_result.
    rewrite notify_left_alone by assumption. split; [reflexivity|].
    rewrite (hooks_leave_fold (fun w' => results w' !! _)) by assumption.
    exact Hres.
  - intros code' Hp Hk.
    rewrite (notify_same_code code code' _ _ _ Hk). f_equal.
    unfold chain. rewrite Hp. reflexivity.
Qed.


(** C7. The closure returned by [register] deletes by key, whatever
    handler is bound by then: after [register(action, h1)] and
    [register(action, h2)], the action resolves to [h2]; calling the
    closure returned by the first [register] removes it, and the action
    resolves to no handler.  Other actions are not touched. *)
Theorem stale_unregister_removes_the_newer_handler (act : string) (h1 h2 : fid) w :
  let '(unregister1, w1) := register act h1 w in
  let '(_, w2) := register act h2 w1 in
  handlers w2 !! act = Some h2
  ∧ handlers (unregister1 w2) !! act = None
  ∧ ∀ act', act' ≠ act → handlers (unregister1 w2) !! act' = handlers w !! act'.
Proof.
  unfold register. simpl. split; [|split].
  - apply lookup_insert_eq.
  - apply lookup_delete_eq.
  - intros act' Hne. rewrite lookup_delete_ne by congruence.
    rewrite !lookup_insert_ne by congruence. reflexivity.
Qed.

(** C5 (amended). Once the plugin chain has produced a result, dispatch
    cannot return anything else, whatever the hooks do: what it returns is
    the very object the chain produced.  If, while the hooks run, no hook
    changes the hook array, dispatch returns, and every hook in the array is
    called once, in registration order, with the command and that object; a
    hook that throws has its error passed to [console.error] and the hooks
    after it still run.  If moreover no hook writes to the object while the
    hooks run, it reads when dispatch returns as it did when the chain
    produced it. *)
Theorem hooks_run_in_order_and_failures_are_contained code fuel act tgt pl w result w1 :
  let '(cmd, w0) := new_command act tgt pl w in
  chain code (plugins w0) cmd (execute code (handlers w0 !! act) act cmd) w0
  = (Normal result, w1) →
  (∀ out w2, dispatch code fuel act tgt pl w = Some (out, w2) → out = Normal result)
  ∧ (hooks_leave afterHooks code cmd result (afterHooks w1) w1 →
     length (afterHooks w1) < fuel →
     let w2 := foldl (fun w' hook =>
                        match hook_fn code hook cmd result w' with
                        | (Normal _, w'') => w''
                        | (Thrown e, w'') =>
                            console_error "[vapor-chamber] Hook error:" e w''
                        end) w1 (afterHooks w1) in
     dispatch code fuel act tgt pl w = Some (Normal result, w2)
     ∧ (hooks_leave (fun w' => results w' !! result) code cmd result
          (afterHooks w1) w1 →
        results w2 !! result = results w1 !! result)).
Proof.
  unfold dispatch, new_command. cbn [fst snd]. intros Hchain. rewrite Hchain. split.
  - intros out w2. apply notify_keeps_completion.
  - intros Hst Hfuel. split.
    + rewrite notify_left_alone by assumption. reflexivity.
    + intros Hsame.
      apply (hooks_leave_fold (fun w' => results w' !! result) code _ result _ w1 Hsame).
Qed.

(** C8. The plugins run by a dispatch are those in the array when the
    chain is built, in that order, whatever the plugins do to the array
    while the chain runs: with plugins of the shape [around], whose
    before- and after-parts are arbitrary and may add or remove plugins,
    dispatch runs the before-parts of the array read at entry, first to
    last, the innermost step, and the after-parts last to first.  With
    plugins of any shape, the code of a plugin that is not in the array at
    entry is not run: replacing it changes nothing. *)
Theorem chain_is_the_snapshot_taken_when_built code fuel act tgt pl w B A :
  Forall (fun p => plugin_fn code p = around (B p) (A p)) (plugins w) →
  let '(cmd, w0) := new_command act tgt pl w in
  dispatch code fuel act tgt pl w
  = notify code fuel cmd
      (bind (run_befores B (plugins w) cmd) (fun _ =>
       bind (execute code (handlers w !! act) act cmd) (fun r =>
       run_afters A (rev (plugins w)) cmd r)) w0)
  ∧ ∀ code',
      Forall (fun p => plugin_fn code' p = plugin_fn code p) (plugins w) →
      handler_fn code' = handler_fn code →
      hook_fn code' = hook_fn code →
      dispatch code' fuel act tgt pl w = dispatch code fuel act tgt pl w.
Proof.
  intros Hps. unfold dispatch, new_command. simpl. split.
  - f_equal. apply chain_around. exact Hps.
  - intros code' Hsame Hh Hk.
    rewrite (notify_same_code code code' _ _ _ Hk). f_equal.
    rewrite (chain_same_plugins code code' _ _ _ Hsame).
    rewrite (execute_same_handler code code') by (intros; rewrite Hh; reflexivity).
    reflexivity.
Qed.

(** C9. The handler is looked up once, when dispatch is entered.  The
    code of no other handler is run by this dispatch (replacing it changes
    nothing), also when a plugin binds another handler to the action while
    the chain runs; and a plugin that does anything to the registry before
    calling [next()] still reaches the handler found at entry, or the
    no-handler branch when there was none. *)
Theorem handler_is_looked_up_once_at_entry code fuel act tgt pl w :
  let '(cmd, w0) := new_command act tgt pl w in
  (∀ code',
     plugin_fn code' = plugin_fn code →
     hook_fn code' = hook_fn code →
     (∀ h, handlers w !! act = Some h → handler_fn code' h = handler_fn code h) →
     dispatch code' fuel act tgt pl w = dispatch code fuel act tgt pl w)
  ∧ (∀ p before after,
       plugins w = [p] →
       plugin_fn code p = around before after →
       dispatch code fuel act tgt pl w
       = notify code fuel cmd
           (bind (before cmd) (fun _ =>
            bind (execute code (handlers w !! act) act cmd) (fun r =>
            after cmd r)) w0)).
Proof.
  unfold dispatch, new_command. simpl. split.
  - intros code' Hp Hk Hh.
    rewrite (notify_same_code code code' _ _ _ Hk). f_equal.
    rewrite (execute_same_handler code code' _ _ _ Hh).
    unfold chain. rewrite Hp. reflexivity.
  - intros p before after Hps Hp. rewrite Hps. f_equal.
    rewrite chain_cons, Hp. reflexivity.
Qed.


End Dispatch.

Section Async.

Context {U : Type}.
Implicit Types (w : World U) (scode : Code U) (acode : AsyncCode U).

(** Settling a sequence: settle the first task, then what follows it. *)
Lemma settle_and_then {A B} (t : Task U A) (k : Completion A → Async B) :
  settle (and_then t k)
  = match settle t with
    | Some (r, w') => settle (k r w')
    | None => None
    end.
Proof.
  induction t as [r w|w resume IH|]; simpl; [reflexivity|apply IH|reflexivity].
Qed.

(** The tick added by [await] is not seen once the task has settled. *)
Lemma settle_await {A} (p : Async A) w : settle (await p w) = settle (p w).
Proof.
  unfold await. rewrite settle_and_then.
  destruct (settle (p w)) as [[r w']|]; reflexivity.
Qed.

Lemma settle_bind_async {A B} (m : Async A) (k : A → Async B) w :
  settle (bind_async m k w)
  = match settle (m w) with
    | Some (Normal a, w') => settle (k a w')
    | Some (Thrown e, w') => Some (Thrown e, w')
    | None => None
    end.
Proof.
  unfold bind_async. rewrite settle_and_then.
  destruct (settle (m w)) as [[[a|e] w']|]; reflexivity.
Qed.

Lemma execute_equiv scode acode handler act cmd :
  (∀ h, equiv_handler (handler_fn scode h) (async_handler_fn acode h)) →
  equiv_next (execute scode handler act cmd) (execute_async acode handler act cmd).
Proof.
  intros Hh w. unfold execute, execute_async.
  destruct handler as [h|]; [|reflexivity].
  rewrite settle_and_then, settle_await, (Hh h cmd w).
  destruct (handler_fn scode h cmd w) as [[v|e] w']; reflexivity.
Qed.

Lemma chain_equiv scode acode ps cmd sex aex :
  (∀ p, equiv_plugin (plugin_fn scode p) (async_plugin_fn acode p)) →
  equiv_next sex aex →
  equiv_next (chain scode ps cmd sex) (chain_async acode ps cmd aex).
Proof.
  intros Hp Hex. induction ps as [|p ps IH]; [exact Hex|].
  intros w. simpl. apply (Hp p cmd _ _ IH).
Qed.

Lemma run_hooks_equiv scode acode fuel i cmd result w :
  (∀ k, equiv_hook (hook_fn scode k) (async_hook_fn acode k)) →
  settle (run_hooks_async acode fuel i cmd result w)
  = (fun w2 => (Normal (), w2)) <$> run_hooks scode fuel i cmd result w.
Proof.
  intros Hk. revert i w. induction fuel as [|fuel IH]; intros i w; [reflexivity|].
  simpl. destruct (afterHooks w !! i) as [hook|]; [|reflexivity].
  rewrite settle_and_then, settle_await, (Hk hook cmd result w).
  unfold call_hook.
  destruct (hook_fn scode hook cmd result w) as [[[]|e] w']; apply IH.
Qed.

(** C6. For logically equivalent handlers, plugins and hooks, the
    asynchronous dispatch, awaited with nothing else interleaved at its
    suspension points, settles exactly as the blocking dispatch returns:
    the same completion (so the same [{ok, value, error}]) and the same
    final world, hence every effect of every plugin, of the handler and of
    every hook in the same order, wherever the clients suspend.  It does
    not settle exactly when the blocking hook loop does not finish. *)
Theorem async_dispatch_settles_as_blocking_dispatch scode acode fuel act tgt pl w :
  equivalent scode acode →
  settle (dispatch_async acode fuel act tgt pl w) = dispatch scode fuel act tgt pl w.
Proof.
  intros [Hh Hp Hk]. unfold dispatch_async, dispatch, new_command. simpl.
  rewrite settle_and_then, settle_await.
  rewrite (chain_equiv scode acode _ _ _ _ Hp (execute_equiv scode acode _ _ _ Hh)).
  destruct (chain scode (plugins w) (length (cmds w))
              (execute scode (handlers w !! act) act (length (cmds w))) _)
    as [[result|e] w1]; simpl; [|reflexivity].
  rewrite settle_and_then, (run_hooks_equiv scode acode _ _ _ _ _ Hk).
  destruct (run_hooks scode fuel 0 (length (cmds w)) result w1); reflexivity.
Qed.

(** An asynchronous [around] plugin is equivalent to the blocking one when
    its parts are. *)
Lemma around_equiv (sb : ref → M ()) (sa : ref → rref → M rref)
  (ab : ref → Async ()) (aa : ref → rref → Async rref) :
  (∀ cmd w, settle (ab cmd w) = Some (sb cmd w)) →
  (∀ cmd r w, settle (aa cmd r w) = Some (sa cmd r w)) →
  equiv_plugin (around sb sa) (around_async ab aa).
Proof.
  intros Hb Ha cmd sn an Hn w. unfold around, around_async.
  rewrite settle_bind_async, Hb. unfold bind at 1.
  destruct (sb cmd w) as [[[]|e] w1]; [|reflexivity].
  rewrite settle_bind_async, settle_await, Hn. unfold bind.
  destruct (sn w1) as [[r|e] w2]; [apply Ha|reflexivity].
Qed.

End Async.

(** * The test suite's clients: instances of the theorems *)

Section DemoFacts.

Import Demo.

Lemma demo_equivalent : equivalent code async_code.
Proof.
  split.
  - intros h cmd w. cbn [handler_fn async_handler_fn code async_code].
    unfold async_handlers_of.
    rewrite settle_bind_async. simpl. destruct (handlers_of h cmd w); reflexivity.
  - intros p.
    assert (Hp : ∀ q, q ≠ 2 → q ≠ 6 →
              equiv_plugin (around (befores_of q) (afters_of q)) (async_plugins_of q)).
    { intros q Hq2 Hq6.
      assert (Ha : async_plugins_of q
                   = around_async
                       (fun cmd => bind_async
                          (fun w => Settled (befores_of q cmd w).1 (befores_of q cmd w).2)
                          (fun _ => sleep))
                       (fun cmd result w =>
                          Settled (afters_of q cmd result w).1 (afters_of q cmd result w).2)).
      { do 7 (destruct q as [|q]; [reflexivity || congruence|]). reflexivity. }
      rewrite Ha. apply around_equiv.
      - intros cmd w. rewrite settle_bind_async. reflexivity.
      - intros cmd r w. reflexivity. }
    destruct (decide (p = 2)) as [->|Hne2]; [intros cmd sn an _ w; reflexivity|].
    destruct (decide (p = 6)) as [->|Hne6].
    + intros cmd sn an Hn w. cbn [plugin_fn async_plugin_fn code async_code].
      unfold plugins_of, async_plugins_of.
      destruct (target <$> cmds w !! cmd) as [[| | |s| |]|]; try reflexivity.
      apply Hn.
    + specialize (Hp p Hne2 Hne6). cbn [plugin_fn async_plugin_fn code async_code].
      replace (plugins_of p) with (around (befores_of p) (afters_of p)); [exact Hp|].
      do 7 (destruct p as [|p]; [reflexivity || congruence|]). reflexivity.
  - intros k cmd result w. cbn [hook_fn async_hook_fn code async_code].
    unfold async_hooks_of.
    rewrite settle_bind_async. simpl. destruct (hooks_of k cmd result w); reflexivity.
Qed.

End DemoFacts.

Section Witnesses.

Import Demo.

(** A hook that registers a hook each time it is called keeps the hook
    loop going: the loop does not finish, whatever the bound on its
    iterations. *)
Lemma breeder_keeps_the_loop_going fuel i cmd result (w : W) :
  i < length (afterHooks w) →
  (∀ j, i ≤ j → j < length (afterHooks w) → afterHooks w !! j = Some breeder) →
  run_hooks code fuel i cmd result w = None.
Proof.
  revert i w. induction fuel as [|fuel IH]; intros i w Hi Hall; [reflexivity|].
  cbn [run_hooks]. rewrite (Hall i) by lia.
  assert (Hcall : call_hook code breeder cmd result w
                  = set_afterHooks (fun hs => hs ++ [breeder]) w) by reflexivity.
  rewrite Hcall. apply IH.
  - cbn [afterHooks set_afterHooks]. rewrite length_app. simpl. lia.
  - intros j Hj. cbn [afterHooks set_afterHooks]. rewrite length_app. simpl. intros Hlen.
    destruct (decide (j < length (afterHooks w))) as [Hlt|Hge].
    + rewrite lookup_app_l by exact Hlt. apply Hall; lia.
    + rewrite lookup_app_r by lia.
      replace (j - length (afterHooks w)) with 0 by lia. reflexivity.
Qed.

Lemma breeder_withholds_the_result fuel cmd result (w : W) :
  afterHooks w = [breeder] →
  notify code fuel cmd (Normal result, w) = None.
Proof.
  intros Hw. cbn [notify].
  rewrite breeder_keeps_the_loop_going; [reflexivity|rewrite Hw; simpl; lia|].
  rewrite Hw. intros [|j] _ Hj; [reflexivity|simpl in Hj; lia].
Qed.


(** The ordering test of the suite: two plugins around a handler. *)
Lemma two_plugins_wrap_the_handler_witness :
  order_of (dispatch_test 1 (bus [("test.action", handler_done)] [plugin1; plugin2] []))
  = Some ["plugin1-before"; "plugin2-before"; "handler"; "plugin2-after"; "plugin1-after"].
Proof.
  unfold dispatch_test.
  pose proof (two_plugins_wrap_the_handler code 1 "test.action" (VObj FNil) VUndefined
                (bus [("test.action", handler_done)] [plugin1; plugin2] [])
                plugin1 plugin2 handler_done
                (befores_of plugin1) (afters_of plugin1)
                (befores_of plugin2) (afters_of plugin2)
                eq_refl eq_refl eq_refl eq_refl) as H.
  cbv beta iota delta [new_command] in H. rewrite H. reflexivity.
Defined.

(** C2, the claim as stated fails: nothing is said of the hooks, which
    receive the object that dispatch returns.  With a handler that returns
    "done", no plugin, and the hook [spoiler], which writes to the [ok]
    field of the result it is given, dispatch returns
    [{ok: false, value: "done"}]; with the hook [breeder], which registers
    a hook each time it is called, the hook loop does not end and dispatch
    does not return. *)
Lemma hooks_can_alter_or_withhold_the_handler_outcome :
  handlers (bus [("test.action", handler_done)] [] [spoiler]) !! "test.action"
  = Some handler_done
  ∧ plugins (bus [("test.action", handler_done)] [] [spoiler]) = []
  ∧ outcome (dispatch_test 2 (bus [("test.action", handler_done)] [] [spoiler]))
    = Some (Normal (Some {| ok := false; value := Some (VStr "done"); error := None |}))
  ∧ ∀ fuel, dispatch_test fuel (bus [("test.action", handler_done)] [] [breeder]) = None.
Proof.
  repeat split; try reflexivity.
  intros fuel. unfold dispatch_test, dispatch, new_command.
  match goal with
  | |- notify _ _ _ ?c = None => let c' := eval vm_compute in c in change c with c'
  end.
  apply breeder_withholds_the_result. reflexivity.
Qed.

(** A handler that returns and one that throws, each behind an observing
    plugin and with two hooks registered, one of which throws. *)
Lemma handler_outcome_becomes_the_result_witness :
  outcome (dispatch_test 3
             (bus [("test.action", handler_done)] [plugin1] [ok_hook; failing_hook]))
  = Some (Normal (Some {| ok := true; value := Some (VStr "done"); error := None |}))
  ∧ outcome (dispatch_test 3
               (bus [("test.action", handler_failing)] [plugin1] [ok_hook; failing_hook]))
    = Some (Normal (Some {| ok := false; value := None;
                            error := Some (VError "Handler failed") |})).
Proof.
  unfold dispatch_test. split.
  - pose proof (handler_outcome_becomes_the_result code 3 "test.action" (VObj FNil)
                  VUndefined
                  (bus [("test.action", handler_done)] [plugin1] [ok_hook; failing_hook])
                  handler_done before_of after_of
                  ltac:(repeat constructor) eq_refl) as H.
    cbv beta iota delta [new_command] in H.
    destruct (H _ _ eq_refl eq_refl ltac:(repeat split) ltac:(repeat split)
                ltac:(simpl; lia)) as [Hd Hr].
    rewrite Hd. exact (f_equal (fun o => Some (Normal o)) Hr).
  - pose proof (handler_outcome_becomes_the_result code 3 "test.action" (VObj FNil)
                  VUndefined
                  (bus [("test.action", handler_failing)] [plugin1] [ok_hook; failing_hook])
                  handler_failing before_of after_of
                  ltac:(repeat constructor) eq_refl) as H.
    cbv beta iota delta [new_command] in H.
    destruct (H _ _ eq_refl eq_refl ltac:(repeat split) ltac:(repeat split)
                ltac:(simpl; lia)) as [Hd Hr].
    rewrite Hd. exact (f_equal (fun o => Some (Normal o)) Hr).
Defined.

(** C3, the claim as stated fails: the error of an unresolved action
    reads "No handler: unknown.action", not "no handler for
    unknown.action"; and nothing is said of the hooks, which receive the
    object that dispatch returns: with the hook [spoiler] dispatch returns
    an object whose [ok] is true, and with the hook [breeder] it does not
    return. *)
Lemma no_handler_message_is_not_the_stated_one :
  outcome (dispatch code 1 "unknown.action" (VObj FNil) VUndefined fresh)
  = Some (Normal (Some {| ok := false; value := None;
                          error := Some (VError "No handler: unknown.action") |}))
  ∧ VError "No handler: unknown.action" ≠ VError ("no handler for " +:+ "unknown.action")
  ∧ outcome (dispatch code 2 "unknown.action" (VObj FNil) VUndefined (bus [] [] [spoiler]))
    = Some (Normal (Some {| ok := true; value := None;
                            error := Some (VError "No handler: unknown.action") |}))
  ∧ ∀ fuel,
      dispatch code fuel "unknown.action" (VObj FNil) VUndefined (bus [] [] [breeder])
      = None.
Proof.
  split; [reflexivity|]. split; [discriminate|]. split; [reflexivity|].
  intros fuel. unfold dispatch, new_command.
  match goal with
  | |- notify _ _ _ ?c = None => let c' := eval vm_compute in c in change c with c'
  end.
  apply breeder_withholds_the_result. reflexivity.
Qed.

(** An action that is not bound, on a bus with a handler for another
    action, an observing plugin and two hooks, one of which throws. *)
Lemma missing_handler_is_reported_witness :
  outcome (dispatch code 3 "unknown.action" (VObj FNil) VUndefined
             (bus [("test.action", handler_done)] [plugin1] [ok_hook; failing_hook]))
  = Some (Normal (Some {| ok := false; value := None;
                          error := Some (VError "No handler: unknown.action") |}))
  ∧ order_of (dispatch code 3 "unknown.action" (VObj FNil) VUndefined
                (bus [("test.action", handler_done)] [plugin1] [ok_hook; failing_hook]))
    = Some ["plugin1-before"; "plugin1-after"; "hook-error"]
  ∧ dispatch without_handlers 3 "unknown.action" (VObj FNil) VUndefined
      (bus [("test.action", handler_done)] [plugin1] [ok_hook; failing_hook])
    = dispatch code 3 "unknown.action" (VObj FNil) VUndefined
        (bus [("test.action", handler_done)] [plugin1] [ok_hook; failing_hook]).
Proof.
  pose proof (missing_handler_is_reported code 3 "unknown.action" (VObj FNil)
                VUndefined
                (bus [("test.action", handler_done)] [plugin1] [ok_hook; failing_hook])
                eq_refl) as H.
  cbv beta iota delta [new_command] in H. destruct H as (_ & H & H').
  destruct (H before_of after_of ltac:(repeat constructor) eq_refl
              ltac:(repeat split) ltac:(repeat split) ltac:(simpl; lia)) as [Hd Hr].
  split; [|split].
  - rewrite Hd. exact (f_equal (fun o => Some (Normal o)) Hr).
  - rewrite Hd. reflexivity.
  - apply H'; reflexivity.
Defined.


(** C5, the claim as stated fails, in two ways.  [once_hook] removes
    itself from the array while it runs, the iterator then finds the array
    exhausted, and [late_hook], registered before the dispatch and still
    registered after it, is not called (it would have pushed the marker
    "late").  And the hooks receive the object that dispatch returns: the
    chain produces [{ok: true, value: "done"}], the hook [spoiler] writes
    to its [ok] field, and dispatch returns [{ok: false, value: "done"}]. *)
Lemma hook_after_a_self_removing_hook_is_skipped :
  afterHooks (bus [("test.action", handler_done)] [] [once_hook; late_hook])
  = [once_hook; late_hook]
  ∧ outcome (dispatch_test 5 (bus [("test.action", handler_done)] [] [once_hook; late_hook]))
    = Some (Normal (Some {| ok := true; value := Some (VStr "done"); error := None |}))
  ∧ order_of (dispatch_test 5 (bus [("test.action", handler_done)] [] [once_hook; late_hook]))
    = Some ["handler"; "once"]
  ∧ (fun x => afterHooks x.2)
      <$> dispatch_test 5 (bus [("test.action", handler_done)] [] [once_hook; late_hook])
    = Some [late_hook]
  ∧ (fun x => (x.1, results x.2 !! 0))
      (chain code [] 0 (execute code (Some handler_done) "test.action" 0)
         (new_command "test.action" (VObj FNil) VUndefined
            (bus [("test.action", handler_done)] [] [spoiler])).2)
    = (Normal 0, Some {| ok := true; value := Some (VStr "done"); error := None |})
  ∧ (fun x => (x.1, results x.2 !! 0))
      <$> dispatch_test 5 (bus [("test.action", handler_done)] [] [spoiler])
    = Some (Normal 0, Some {| ok := false; value := Some (VStr "done"); error := None |}).
Proof. repeat split; reflexivity. Qed.

(** The hook tests of the suite: a hook that throws between two that do
    not. *)
Lemma hooks_run_in_order_and_failures_are_contained_witness :
  outcome (dispatch_test 4
             (bus [("test.action", handler_done)] [plugin1] [ok_hook; failing_hook; ok_hook]))
  = Some (Normal (Some {| ok := true; value := Some (VStr "done"); error := None |}))
  ∧ (fun x => (user x.2, console x.2))
      <$> dispatch_test 4
            (bus [("test.action", handler_done)] [plugin1] [ok_hook; failing_hook; ok_hook])
    = Some (["plugin1-before"; "handler"; "plugin1-after"; "hook-ok"; "hook-ok"],
            [("[vapor-chamber] Hook error:", VError "Hook error")]).
Proof.
  unfold dispatch_test.
  epose proof (hooks_run_in_order_and_failures_are_contained code 4 "test.action"
                 (VObj FNil) VUndefined
                 (bus [("test.action", handler_done)] [plugin1]
                    [ok_hook; failing_hook; ok_hook]) _ _) as H.
  cbv beta iota delta [new_command] in H.
  destruct (H eq_refl) as [_ H'].
  destruct (H' ltac:(repeat split) ltac:(simpl; lia)) as [Hd Hr].
  rewrite Hd. split; [|reflexivity].
  exact (f_equal (fun o => Some (Normal o)) (Hr ltac:(repeat split))).
Defined.

(** The asynchronous tests of the suite: handler, plugins and hooks that
    all suspend. *)
Lemma async_dispatch_settles_as_blocking_dispatch_witness :
  settle (dispatch_async async_code 4 "test.action" (VObj FNil) VUndefined
            (bus [("test.action", handler_done)] [plugin1; plugin2]
               [ok_hook; failing_hook; ok_hook]))
  = dispatch_test 4
      (bus [("test.action", handler_done)] [plugin1; plugin2]
         [ok_hook; failing_hook; ok_hook])
  ∧ order_of (settle (dispatch_async async_code 4 "test.action" (VObj FNil) VUndefined
                        (bus [("test.action", handler_done)] [plugin1; plugin2]
                           [ok_hook; failing_hook; ok_hook])))
    = Some ["plugin1-before"; "plugin2-before"; "handler"; "plugin2-after";
            "plugin1-after"; "hook-ok"; "hook-ok"]
  ∧ outcome (settle (dispatch_async async_code 4 "test.action" (VObj FNil) VUndefined
                       (bus [("test.action", handler_done)] [plugin1; plugin2]
                          [ok_hook; failing_hook; ok_hook])))
    = Some (Normal (Some {| ok := true; value := Some (VStr "done"); error := None |})).
Proof.
  pose proof (async_dispatch_settles_as_blocking_dispatch code async_code 4
                "test.action" (VObj FNil) VUndefined
                (bus [("test.action", handler_done)] [plugin1; plugin2]
                   [ok_hook; failing_hook; ok_hook])
                demo_equivalent) as H.
  split; [exact H|]. rewrite H. split; reflexivity.
Defined.

(** The stale closure at work on a fresh bus. *)
Lemma stale_unregister_removes_the_newer_handler_witness :
  handlers ((register "test.action" handler_done fresh).1
              (register "test.action" handler_second
                 (register "test.action" handler_done fresh).2).2) !! "test.action"
  = None.
Proof.
  pose proof (stale_unregister_removes_the_newer_handler "test.action"
                handler_done handler_second fresh) as H.
  cbv beta iota delta [register] in H. destruct H as (_ & H & _). exact H.
Defined.

(** [rewirer] adds [blocker] and removes [plugin1] before it calls
    [next()]: [plugin1] still runs and [blocker] does not, in this
    dispatch. *)
Lemma chain_is_the_snapshot_taken_when_built_witness :
  order_of (dispatch_test 1 (bus [("test.action", handler_done)] [rewirer; plugin1] []))
  = Some ["rewirer-before"; "plugin1-before"; "handler"; "plugin1-after"; "rewirer-after"]
  ∧ (fun x => plugins x.2)
      <$> dispatch_test 1 (bus [("test.action", handler_done)] [rewirer; plugin1] [])
    = Some [rewirer; blocker].
Proof.
  unfold dispatch_test.
  pose proof (chain_is_the_snapshot_taken_when_built code 1 "test.action" (VObj FNil)
                VUndefined (bus [("test.action", handler_done)] [rewirer; plugin1] [])
                befores_of afters_of ltac:(repeat constructor)) as H.
  cbv beta iota delta [new_command] in H. destruct H as [H _].
  rewrite H. split; reflexivity.
Defined.

(** [rebinder] binds the action to [handler_second] before it calls
    [next()]: this dispatch still runs [handler_done]. *)
Lemma handler_is_looked_up_once_at_entry_witness :
  (fun x => (x.1, results x.2, user x.2, handlers x.2 !! "test.action"))
    <$> dispatch_test 1 (bus [("test.action", handler_done)] [rebinder] [])
  = Some (Normal 0, [{| ok := true; value := Some (VStr "done"); error := None |}],
          ["handler"], Some handler_second).
Proof.
  unfold dispatch_test.
  pose proof (handler_is_looked_up_once_at_entry code 1 "test.action" (VObj FNil)
                VUndefined (bus [("test.action", handler_done)] [rebinder] [])) as H.
  cbv beta iota delta [new_command] in H. destruct H as [_ H].
  rewrite (H rebinder (befores_of rebinder) (afters_of rebinder) eq_refl eq_refl).
  reflexivity.
Defined.



(** The registry tests of the suite. *)
Example second_registration_replaces_the_first :
  outcome (dispatch_test 1
             (register "test.action" handler_second
                (register "test.action" handler_done fresh).2).2)
  = Some (Normal (Some (result_ok (VStr "second")))).
Proof. reflexivity. Qed.

Example unregister_leaves_no_handler :
  outcome (dispatch_test 1
             ((register "test.action" handler_done fresh).1
                (register "test.action" handler_done fresh).2))
  = Some (Normal (Some (no_handler "test.action"))).
Proof. reflexivity. Qed.

(** The short-circuit test of the suite. *)
Example blocked_command_does_not_reach_the_handler :
  (fun x => (results x.2, user x.2))
    <$> dispatch_test 1 (bus [("test.action", handler_done)] [blocker] [])
  = Some ([{| ok := false; value := None; error := Some (VError "Blocked") |}], []).
Proof. reflexivity. Qed.

(** The unsubscribe tests of the suite. *)
Example unsubscribed_plugin_no_longer_runs :
  order_of (dispatch_test 1
              ((use plugin1 (bus [("test.action", handler_done)] [] [])).1
                 (use plugin1 (bus [("test.action", handler_done)] [] [])).2))
  = Some ["handler"].
Proof. reflexivity. Qed.

Example unsubscribed_hook_no_longer_runs :
  order_of (dispatch_test 2
              ((onAfter ok_hook (bus [("test.action", handler_done)] [] [late_hook])).1
                 (onAfter ok_hook (bus [("test.action", handler_done)] [] [late_hook])).2))
  = Some ["handler"; "late"].
Proof. reflexivity. Qed.

End Witnesses.

(** * The registry, the plugin array and the hook array *)

Section Subscriptions.

Context {U : Type}.
Implicit Types (w : World U) (code : Code U) (xs : list fid).

Lemma indexOf_first (f : fid) pre post :
  f ∉ pre → indexOf f (pre ++ f :: post) = Some (length pre).
Proof.
  induction pre as [|y pre IH]; intros Hf; simpl.
  - rewrite decide_True by reflexivity. reflexivity.
  - apply not_elem_of_cons in Hf as [Hne Hf].
    rewrite decide_False by congruence. rewrite (IH Hf). reflexivity.
Qed.

Lemma indexOf_absent (f : fid) xs : f ∉ xs → indexOf f xs = None.
Proof.
  induction xs as [|y xs IH]; intros Hf; simpl; [reflexivity|].
  apply not_elem_of_cons in Hf as [Hne Hf].
  rewrite decide_False by congruence. rewrite (IH Hf). reflexivity.
Qed.

Lemma splice_out_first (f : fid) pre post :
  f ∉ pre → splice_out f (pre ++ f :: post) = pre ++ post.
Proof.
  intros Hf. unfold splice_out. rewrite (indexOf_first f pre post Hf).
  induction pre as [|y pre IH]; simpl; [reflexivity|].
  apply not_elem_of_cons in Hf as [_ Hf]. f_equal. apply IH, Hf.
Qed.

Lemma splice_out_absent (f : fid) xs : f ∉ xs → splice_out f xs = xs.
Proof. intros Hf. unfold splice_out. rewrite (indexOf_absent f xs Hf). reflexivity. Qed.

(** X1. The closure returned by [use] removes one registration of the
    plugin, the earliest one in the array at the time it is called, and
    leaves every other plugin where it is; when the plugin is not in the
    array it does nothing.  It touches nothing but the plugin array. *)
Theorem unsubscribe_removes_the_earliest_registration (plugin : fid) w w2 :
  let '(unsubscribe, _) := use plugin w in
  (∀ pre post, plugins w2 = pre ++ plugin :: post → plugin ∉ pre →
     plugins (unsubscribe w2) = pre ++ post)
  ∧ (plugin ∉ plugins w2 → unsubscribe w2 = w2)
  ∧ handlers (unsubscribe w2) = handlers w2
  ∧ afterHooks (unsubscribe w2) = afterHooks w2
  ∧ cmds (unsubscribe w2) = cmds w2
  ∧ results (unsubscribe w2) = results w2
  ∧ console (unsubscribe w2) = console w2
  ∧ user (unsubscribe w2) = user w2.
Proof.
  simpl. split; [|split; [|repeat split]].
  - intros pre post Hps Hf. rewrite Hps. apply splice_out_first, Hf.
  - intros Hf. destruct w2. unfold set_plugins. simpl in *.
    rewrite (splice_out_absent _ _ Hf). reflexivity.
Qed.

(** X2. Registering a plugin that is not yet in the array and calling the
    returned closure restores the bus exactly; calling the closure once
    more changes nothing. *)
Theorem use_then_unsubscribe_restores_the_bus (plugin : fid) w :
  plugin ∉ plugins w →
  let '(unsubscribe, w1) := use plugin w in
  unsubscribe w1 = w ∧ unsubscribe (unsubscribe w1) = w.
Proof.
  intros Hf. simpl.
  assert (H1 : set_plugins (splice_out plugin)
                 (set_plugins (fun ps => ps ++ [plugin]) w) = w).
  { destruct w. unfold set_plugins. simpl in *.
    rewrite (splice_out_first plugin _ [] Hf), app_nil_r. reflexivity. }
  rewrite H1. split; [reflexivity|].
  destruct w. unfold set_plugins. simpl in *.
  rewrite (splice_out_absent _ _ Hf). reflexivity.
Qed.

(** X3. When the same function is registered as a plugin a second time,
    the closure returned by the second [use] does not undo that
    registration: it removes the earlier one.  The plugin stays registered,
    now as the last (innermost) plugin. *)
Theorem unsubscribe_of_a_second_registration_removes_the_first (plugin : fid) w pre post :
  plugins w = pre ++ plugin :: post →
  plugin ∉ pre →
  let '(unsubscribe, w1) := use plugin w in
  plugins w1 = pre ++ plugin :: post ++ [plugin]
  ∧ plugins (unsubscribe w1) = pre ++ post ++ [plugin].
Proof.
  intros Hps Hf. simpl. rewrite Hps. split.
  - rewrite <- app_assoc. reflexivity.
  - rewrite <- app_assoc. simpl. apply (splice_out_first plugin pre (post ++ [plugin]) Hf).
Qed.

(** X4. The closure returned by [onAfter] removes the earliest
    registration of the hook and keeps the order of the others; for a hook
    registered once, registering and unsubscribing restores the bus. *)
Theorem hook_unsubscribe_removes_the_earliest_registration (hook : fid) w w2 :
  let '(unsubscribe, w1) := onAfter hook w in
  afterHooks w1 = afterHooks w ++ [hook]
  ∧ (∀ pre post, afterHooks w2 = pre ++ hook :: post → hook ∉ pre →
       afterHooks (unsubscribe w2) = pre ++ post)
  ∧ (hook ∉ afterHooks w2 → unsubscribe w2 = w2)
  ∧ (hook ∉ afterHooks w → unsubscribe w1 = w).
Proof.
  simpl. split; [reflexivity|]. split; [|split].
  - intros pre post Hks Hf. rewrite Hks. apply splice_out_first, Hf.
  - intros Hf. destruct w2. unfold set_afterHooks. simpl in *.
    rewrite (splice_out_absent _ _ Hf). reflexivity.
  - intros Hf. destruct w. unfold set_afterHooks. simpl in *.
    rewrite (splice_out_first hook _ [] Hf), app_nil_r. reflexivity.
Qed.

(** X5. Registering a second handler for an action replaces the first:
    the bus is left exactly as if only the second had been registered, so
    no later dispatch can reach the first. *)
Theorem registering_again_replaces_the_handler (act : string) (h1 h2 : fid) w :
  (register act h2 (register act h1 w).2).2 = (register act h2 w).2
  ∧ ∀ act', act' ≠ act →
      handlers (register act h2 (register act h1 w).2).2 !! act' = handlers w !! act'.
Proof.
  unfold register, set_handlers. simpl. split.
  - rewrite insert_insert_eq. reflexivity.
  - intros act' Hne. rewrite !lookup_insert_ne by congruence. reflexivity.
Qed.

(** X6. Calling the closure returned by [register] leaves the action
    unbound, whatever was bound before the registration: an earlier binding
    is not restored.  When nothing was bound before, the bus is restored
    exactly. *)
Theorem register_then_unregister_unbinds_the_action (act : string) (h : fid) w :
  let '(unregister, w1) := register act h w in
  handlers w1 !! act = Some h
  ∧ unregister w1 = set_handlers (delete act) w
  ∧ handlers (unregister w1) !! act = None
  ∧ (handlers w !! act = None → unregister w1 = w).
Proof.
  unfold register, set_handlers. simpl. split; [apply lookup_insert_eq|].
  split; [rewrite delete_insert_eq; reflexivity|].
  split; [apply lookup_delete_eq|].
  intros Hnone. destruct w. simpl in *.
  rewrite delete_insert_eq, delete_id by exact Hnone. reflexivity.
Qed.

End Subscriptions.

(** * Failures in the chain *)

Section Failures.

Context {U : Type}.
Implicit Types (w : World U) (code : Code U).

Lemma execute_returns code handler act cmd w :
  ∃ result w', execute code handler act cmd w = (Normal result, w').
Proof.
  unfold execute. destruct handler as [h|]; [|eauto].
  destruct (handler_fn code h cmd w) as [[v|e] w']; eauto.
Qed.

Lemma lookup_new_command act tgt pl w :
  cmds (new_command act tgt pl w).2 !! (new_command act tgt pl w).1
  = Some (mkCommand act tgt pl).
Proof.
  unfold new_command, set_cmds. simpl.
  rewrite lookup_app_r by lia. rewrite Nat.sub_diag. reflexivity.
Qed.

(** X7. A failure that leaves the plugin chain leaves dispatch: dispatch
    throws the same error at once, in the world the chain left, and no hook
    is called (no iteration of the hook loop is needed and the code of the
    hooks does not matter).  This is what happens when a plugin [p] throws
    before it calls [next()] and no plugin registered before it catches:
    with plugins of the shape before/[next()]/after in front of it, whose
    before-parts complete, dispatch throws the error of [p], and the
    plugins after [p] and the handler are left out as well (replacing their
    code changes nothing). *)
Theorem plugin_failure_leaves_dispatch_and_skips_the_hooks code fuel act tgt pl w :
  let '(cmd, w0) := new_command act tgt pl w in
  (∀ e w1,
     chain code (plugins w0) cmd (execute code (handlers w0 !! act) act cmd) w0
     = (Thrown e, w1) →
     dispatch code fuel act tgt pl w = Some (Thrown e, w1)
     ∧ ∀ code' fuel',
         handler_fn code' = handler_fn code →
         plugin_fn code' = plugin_fn code →
         dispatch code' fuel' act tgt pl w = Some (Thrown e, w1))
  ∧ (∀ outer p later B A before after wp e w1,
       plugins w = outer ++ p :: later →
       Forall (fun q => plugin_fn code q = around (B q) (A q)) outer →
       run_befores B outer cmd w0 = (Normal (), wp) →
       plugin_fn code p = around before after →
       before cmd wp = (Thrown e, w1) →
       dispatch code fuel act tgt pl w = Some (Thrown e, w1)
       ∧ ∀ code' fuel',
           Forall (fun q => plugin_fn code' q = plugin_fn code q) (outer ++ [p]) →
           dispatch code' fuel' act tgt pl w = Some (Thrown e, w1)).
Proof.
  unfold dispatch, new_command. cbn [fst snd].
  replace (plugins (set_cmds (fun cs => cs ++ [mkCommand act tgt pl]) w))
    with (plugins w) by reflexivity.
  split.
  - intros e w1 Hchain. split; [rewrite Hchain; reflexivity|].
    intros code' fuel' Hh Hp.
    rewrite (execute_same_handler code code')
      by (intros; rewrite Hh; reflexivity).
    unfold chain in *. rewrite Hp, Hchain. reflexivity.
  - intros outer p later B A before after wp e w1 Hps Houter Hb Hp Hthrow.
    assert (Hc : ∀ c ex,
              Forall (fun q => plugin_fn c q = plugin_fn code q) (outer ++ [p]) →
              chain c (plugins w) (length (cmds w)) ex
                (set_cmds (fun cs => cs ++ [mkCommand act tgt pl]) w) = (Thrown e, w1)).
    { intros c ex Hsame.
      apply Forall_app in Hsame as [Hout Hp'].
      apply Forall_cons in Hp' as [Hp' _].
      rewrite Hps, chain_app.
      rewrite (chain_same_plugins code c outer _ _ Hout).
      rewrite (chain_around code B A outer _ _ _ Houter).
      unfold bind at 1. rewrite Hb. unfold bind.
      rewrite chain_cons, Hp', Hp. unfold around, bind. rewrite Hthrow. reflexivity. }
    split.
    + rewrite (Hc code) by (apply Forall_forall; reflexivity). reflexivity.
    + intros code' fuel' Hsame. rewrite (Hc code' _ Hsame). reflexivity.
Qed.

(** X8. When every registered plugin only observes, dispatch does not
    throw, whatever the handler does and whether or not one is bound: if it
    returns, it returns a result. *)
Theorem dispatch_with_observers_does_not_throw code fuel act tgt pl w B A out w' :
  Forall (fun p => plugin_fn code p = observer (B p) (A p)) (plugins w) →
  dispatch code fuel act tgt pl w = Some (out, w') →
  ∃ result, out = Normal result.
Proof.
  intros Hps. unfold dispatch, new_command. simpl.
  rewrite (chain_observers code B A _ _ _ _ Hps).
  destruct (execute_returns code (handlers w !! act) act (length (cmds w))
              (foldl (fun w' p => B p (length (cmds w)) w')
                 (set_cmds (fun cs => cs ++ [mkCommand act tgt pl]) w) (plugins w)))
    as (result & w1 & Hex).
  rewrite Hex. intros Hn. apply notify_keeps_completion in Hn. eauto.
Qed.

End Failures.

Section AsyncFailures.

Context {U : Type}.
Implicit Types (w : World U) (acode : AsyncCode U).

(** X9. On the asynchronous bus with no plugin registered, a handler
    whose promise is fulfilled with [v] gives [{ok: true, value: v}] and
    one whose promise is rejected with [e] gives [{ok: false, error: e}]:
    that is the object handed to the hooks, and the promise of dispatch is
    fulfilled with it in both cases, once the hook loop has settled.  An
    action without handler gives the no-handler result. *)
Theorem async_handler_outcome_becomes_the_result acode fuel act tgt pl w :
  plugins w = [] →
  let '(cmd, w0) := new_command act tgt pl w in
  (∀ h v w1 w2,
     handlers w !! act = Some h →
     settle (async_handler_fn acode h cmd w0) = Some (Normal v, w1) →
     settle (run_hooks_async acode fuel 0 cmd (length (results w1))
               (alloc_result (result_ok v) w1)) = Some (Normal (), w2) →
     settle (dispatch_async acode fuel act tgt pl w)
     = Some (Normal (length (results w1)), w2)
     ∧ results (alloc_result (result_ok v) w1) !! length (results w1)
       = Some {| ok := true; value := Some v; error := None |})
  ∧ (∀ h e w1 w2,
     handlers w !! act = Some h →
     settle (async_handler_fn acode h cmd w0) = Some (Thrown e, w1) →
     settle (run_hooks_async acode fuel 0 cmd (length (results w1))
               (alloc_result (result_error e) w1)) = Some (Normal (), w2) →
     settle (dispatch_async acode fuel act tgt pl w)
     = Some (Normal (length (results w1)), w2)
     ∧ results (alloc_result (result_error e) w1) !! length (results w1)
       = Some {| ok := false; value := None; error := Some e |})
  ∧ (∀ w2,
     handlers w !! act = None →
     settle (run_hooks_async acode fuel 0 cmd (length (results w0))
               (alloc_result (no_handler act) w0)) = Some (Normal (), w2) →
     settle (dispatch_async acode fuel act tgt pl w)
     = Some (Normal (length (results w0)), w2)
     ∧ results (alloc_result (no_handler act) w0) !! length (results w0)
       = Some (no_handler act)).
Proof.
  intros Hps. unfold dispatch_async, new_command. cbn [fst snd].
  replace (plugins (set_cmds (fun cs => cs ++ [mkCommand act tgt pl]) w))
    with (plugins w) by reflexivity.
  replace (handlers (set_cmds (fun cs => cs ++ [mkCommand act tgt pl]) w))
    with (handlers w) by reflexivity.
  rewrite Hps. cbn [chain_async foldr].
  split; [|split].
  - intros h v w1 w2 Hh Hcall Hhooks. split; [|apply lookup_alloc_result].
    rewrite settle_and_then, settle_await. unfold execute_async. rewrite Hh.
    rewrite settle_and_then, settle_await, Hcall. cbn [settle new_result_async].
    rewrite settle_and_then, Hhooks. reflexivity.
  - intros h e w1 w2 Hh Hcall Hhooks. split; [|apply lookup_alloc_result].
    rewrite settle_and_then, settle_await. unfold execute_async. rewrite Hh.
    rewrite settle_and_then, settle_await, Hcall. cbn [settle new_result_async].
    rewrite settle_and_then, Hhooks. reflexivity.
  - intros w2 Hh Hhooks. split; [|apply lookup_alloc_result].
    rewrite settle_and_then, settle_await. unfold execute_async. rewrite Hh.
    cbn [settle new_result_async].
    rewrite settle_and_then, Hhooks. reflexivity.
Qed.

(** X10. On the asynchronous bus a plugin chain that ends in a rejection
    rejects the promise of dispatch with the same error, and no hook is
    called: no iteration of the hook loop is needed. *)
Theorem async_chain_rejection_skips_the_hooks acode fuel act tgt pl w e w1 :
  let '(cmd, w0) := new_command act tgt pl w in
  settle (chain_async acode (plugins w0) cmd
            (execute_async acode (handlers w0 !! act) act cmd) w0) = Some (Thrown e, w1) →
  settle (dispatch_async acode fuel act tgt pl w) = Some (Thrown e, w1)
  ∧ ∀ acode', async_handler_fn acode' = async_handler_fn acode →
      async_plugin_fn acode' = async_plugin_fn acode →
      settle (dispatch_async acode' 0 act tgt pl w) = Some (Thrown e, w1).
Proof.
  unfold dispatch_async, new_command. simpl. intros Hchain. split.
  - rewrite settle_and_then, settle_await, Hchain. reflexivity.
  - intros acode' Hh Hp. rewrite settle_and_then, settle_await.
    unfold chain_async, execute_async in *. rewrite Hh, Hp, Hchain. reflexivity.
Qed.

End AsyncFailures.

(** * chamber.ts *)

Section ChamberFacts.

Context {U : Type}.
Implicit Types (w : World U) (code : Code U).

Lemma read_write {A} (s : Cell U A) a w :
  holds_its_value s → read s (write s a w) = a.
Proof. intros Hs. unfold read, write, set_user. simpl. apply Hs. Qed.

Lemma read_write_apart {A B} (s : Cell U A) (t : Cell U B) b w :
  apart s t → read s (write t b w) = read s w.
Proof. intros Hst. unfold read, write, set_user. simpl. apply Hst. Qed.

(** X11. When the [dispatch] of [useCommand] returns, [loading] is false
    again; after a failed command [lastError] holds its error ([null] when
    the result carries none), and after a successful one it holds what the
    dispatch left there, which is [null] unless a client wrote to it. *)
Theorem useCommand_reports_the_outcome
  (loading : Cell U bool) (lastError : Cell U (option Val))
  code fuel act tgt pl w result w' :
  holds_its_value loading →
  holds_its_value lastError →
  apart loading lastError →
  apart lastError loading →
  Chamber.useCommand loading lastError code fuel act tgt pl w = Some (Normal result, w') →
  read loading w' = false
  ∧ (ok_of result w' = false → read lastError w' = Chamber.or_null (error_of result w'))
  ∧ (ok_of result w' = true →
     ∃ w3, dispatch code fuel act tgt pl
             (write lastError None (write loading true w)) = Some (Normal result, w3)
           ∧ read lastError w' = read lastError w3).
Proof.
  intros Hl He Hle Hel. unfold Chamber.useCommand.
  destruct (dispatch code fuel act tgt pl (write lastError None (write loading true w)))
    as [[[r|e] w3]|] eqn:Hd; [|discriminate|discriminate].
  intros Heq. injection Heq as -> <-.
  change (ok_of result (write loading false w3)) with (ok_of result w3).
  change (error_of result (write loading false w3)) with (error_of result w3).
  destruct (ok_of result w3) eqn:Hok.
  - change (ok_of result (write loading false w3)) with (ok_of result w3).
    split; [apply read_write, Hl|]. split; [rewrite Hok; discriminate|].
    intros _. exists w3. split; [reflexivity|].
    apply read_write_apart, Hel.
  - change (ok_of result (write lastError (Chamber.or_null (error_of result w3))
                            (write loading false w3)))
      with (ok_of result w3).
    change (error_of result (write lastError (Chamber.or_null (error_of result w3))
                               (write loading false w3)))
      with (error_of result w3).
    split; [rewrite read_write_apart by exact Hle; apply read_write, Hl|].
    split; [|rewrite Hok; discriminate]. intros _. apply read_write, He.
Qed.

(** X12. When the plugin chain throws (a plugin throws and none catches
    it), the [dispatch] of [useCommand] throws the same error and does not
    reset [loading]: the bus is left in the world the chain left, [loading]
    was true when the chain started, so it still reads true unless client
    code wrote to it while the chain ran. *)
Theorem useCommand_leaves_loading_set_when_a_plugin_throws
  (loading : Cell U bool) (lastError : Cell U (option Val))
  code fuel act tgt pl w e w1 :
  holds_its_value loading →
  apart loading lastError →
  let '(cmd, w0) := new_command act tgt pl
                      (write lastError None (write loading true w)) in
  chain code (plugins w0) cmd (execute code (handlers w0 !! act) act cmd) w0
  = (Thrown e, w1) →
  Chamber.useCommand loading lastError code fuel act tgt pl w = Some (Thrown e, w1)
  ∧ read loading w0 = true
  ∧ (read loading w1 = read loading w0 → read loading w1 = true).
Proof.
  intros Hl Hle. unfold new_command. cbn [fst snd]. intros Hchain.
  assert (Hw0 : read loading
                  (set_cmds (fun cs => cs ++ [mkCommand act tgt pl])
                     (write lastError None (write loading true w))) = true).
  { change (read loading (write lastError None (write loading true w)) = true).
    rewrite read_write_apart by exact Hle. apply read_write, Hl. }
  split; [|split; [exact Hw0|intros ->; exact Hw0]].
  unfold Chamber.useCommand, dispatch, new_command. cbn [fst snd].
  rewrite Hchain. reflexivity.
Qed.

Lemma register_all_handlers entries w :
  handlers (Chamber.register_all entries w).2
  = foldl (fun m e => <[e.1 := e.2]> m) (handlers w) entries
  ∧ user (Chamber.register_all entries w).2 = user w.
Proof.
  revert w. induction entries as [|[act h] entries IH]; intros w; simpl; [auto|].
  specialize (IH (set_handlers (<[act := h]>) w)).
  destruct (Chamber.register_all entries (set_handlers (<[act := h]>) w)) as [us w2].
  simpl in *. exact IH.
Qed.

Lemma register_all_closures entries w w' :
  handlers (foldl (fun w'' unregister => unregister w'') w'
              (Chamber.register_all entries w).1)
  = foldl (fun m e => delete e.1 m) (handlers w') entries.
Proof.
  revert w w'. induction entries as [|[act h] entries IH]; intros w w'; simpl;
    [reflexivity|].
  specialize (IH (set_handlers (<[act := h]>) w) (set_handlers (delete act) w')).
  destruct (Chamber.register_all entries (set_handlers (<[act := h]>) w)) as [us w2].
  simpl in *. exact IH.
Qed.

Lemma foldl_insert_other (entries : list (string * fid)) (m : gmap string fid) act :
  act ∉ entries.*1 →
  foldl (fun m e => <[e.1 := e.2]> m) m entries !! act = m !! act.
Proof.
  revert m. induction entries as [|[a h] entries IH]; intros m Hnin; simpl; [reflexivity|].
  simpl in Hnin. apply not_elem_of_cons in Hnin as [Hne Hnin].
  rewrite (IH _ Hnin). apply lookup_insert_ne. congruence.
Qed.

Lemma foldl_insert_bound (entries : list (string * fid)) (m : gmap string fid) act h :
  NoDup entries.*1 → (act, h) ∈ entries →
  foldl (fun m e => <[e.1 := e.2]> m) m entries !! act = Some h.
Proof.
  revert m. induction entries as [|[a h'] entries IH]; intros m Hnd Hin; simpl.
  - inversion Hin.
  - simpl in Hnd. apply NoDup_cons in Hnd as [Hna Hnd].
    apply elem_of_cons in Hin as [Heq|Hin].
    + injection Heq as <- <-. rewrite (foldl_insert_other _ _ _ Hna).
      apply lookup_insert_eq.
    + apply IH; assumption.
Qed.

Lemma foldl_delete_lookup (entries : list (string * fid)) (m : gmap string fid) act :
  foldl (fun m e => delete e.1 m) m entries !! act
  = if decide (act ∈ entries.*1) then None else m !! act.
Proof.
  revert m. induction entries as [|[a h] entries IH]; intros m.
  - reflexivity.
  - simpl foldl. rewrite IH. rewrite fmap_cons. simpl.
    destruct (decide (act ∈ entries.*1)) as [Hin|Hnin].
    + rewrite decide_True by (apply elem_of_cons; auto). reflexivity.
    + destruct (decide (a = act)) as [->|Hne].
      * rewrite decide_True by (apply elem_of_cons; auto). apply lookup_delete_eq.
      * rewrite decide_False
          by (intros [?|?]%elem_of_cons; [congruence|contradiction]).
        apply lookup_delete_ne. exact Hne.
Qed.

(** X13. [useCommandState] sets the state to its initial value and binds
    every action of [handlers] to the closure made for it (the actions
    being distinct), leaving the other actions as they were.  Its
    [dispose], called at any later time, unbinds every one of these
    actions, also one that was bound to another handler in the meantime,
    and only these. *)
Theorem useCommandState_binds_and_dispose_unbinds
  (state : Cell U Val) initial (entries : list (string * fid)) w :
  holds_its_value state →
  NoDup entries.*1 →
  let '(dispose, w1) := Chamber.useCommandState state initial entries w in
  read state w1 = initial
  ∧ (∀ act h, (act, h) ∈ entries → handlers w1 !! act = Some h)
  ∧ (∀ act, act ∉ entries.*1 → handlers w1 !! act = handlers w !! act)
  ∧ ∀ w2 act,
      handlers (dispose w2) !! act
      = if decide (act ∈ entries.*1) then None else handlers w2 !! act.
Proof.
  intros Hs Hnd. unfold Chamber.useCommandState.
  pose proof (register_all_handlers entries (write state initial w)) as [Hreg Hu].
  pose proof (register_all_closures entries (write state initial w)) as Hcl.
  destruct (Chamber.register_all entries (write state initial w)) as [us w1].
  simpl in *. split; [|split; [|split]].
  - unfold read. rewrite Hu. simpl. apply Hs.
  - intros act h Hin. rewrite Hreg. apply foldl_insert_bound; assumption.
  - intros act Hnin. rewrite Hreg. apply foldl_insert_other, Hnin.
  - intros w2 act. rewrite Hcl. apply foldl_delete_lookup.
Qed.


End ChamberFacts.

(** * Undo and redo stacks *)

Section Stacks.

Context {U : Type}.
Implicit Types (w : World U) (xs : list ref).

Lemma pop_snoc xs x : pop (xs ++ [x]) = Some (xs, x).
Proof. unfold pop. rewrite last_snoc, removelast_last. reflexivity. Qed.

Lemma pop_Some xs p x : pop xs = Some (p, x) → xs = p ++ [x].
Proof.
  destruct (decide (xs = [])) as [->|Hne]; [discriminate|].
  destruct (exists_last Hne) as (p' & x' & ->).
  rewrite pop_snoc. congruence.
Qed.

Lemma pop_None xs : pop xs = None → xs = [].
Proof.
  destruct (decide (xs = [])) as [->|Hne]; [reflexivity|].
  destruct (exists_last Hne) as (p' & x' & ->).
  rewrite pop_snoc. discriminate.
Qed.

Lemma push_bounded_length maxSize xs x :
  (Z.of_nat (length xs) ≤ Z.max 0 maxSize)%Z →
  (Z.of_nat (length (push_bounded maxSize xs x)) ≤ Z.max 0 maxSize)%Z.
Proof.
  intros Hb. unfold push_bounded. rewrite length_app. simpl.
  destruct (maxSize <? Z.of_nat (length xs + 1))%Z eqn:Hlt.
  - destruct xs as [|y xs]; simpl in *; [lia|]. rewrite length_app. simpl. lia.
  - apply Z.ltb_ge in Hlt. rewrite length_app. simpl. lia.
Qed.

(** What is kept: all of it while there is room, all but the oldest
    command otherwise. *)
Lemma push_bounded_spec maxSize xs x :
  (1 ≤ maxSize)%Z →
  push_bounded maxSize xs x
  = if (Z.of_nat (length xs) <? maxSize)%Z then xs ++ [x] else tail xs ++ [x].
Proof.
  intros Hm. unfold push_bounded. rewrite length_app. simpl.
  destruct (Z.of_nat (length xs) <? maxSize)%Z eqn:Hlt.
  - apply Z.ltb_lt in Hlt. rewrite (proj2 (Z.ltb_ge _ _)) by lia. reflexivity.
  - apply Z.ltb_ge in Hlt. rewrite (proj2 (Z.ltb_lt _ _)) by lia.
    destruct xs as [|y xs]; [simpl in Hlt; lia|reflexivity].
Qed.

(** X15. The history of [useCommandHistory] never holds more than
    [maxSize] commands, the undo and the redo stack taken together: the
    hook keeps the bound (for a filter that does not write to the
    history), [undo] and [redo] move one command from one stack to the
    other, and [clear] empties both. *)
Theorem useCommandHistory_holds_at_most_maxSize
  (hist : Cell U Chamber.History) maxSize filter cmd result w :
  holds_its_value hist →
  (∀ f w', filter = Some f → read hist (f cmd w').2 = read hist w') →
  let size := fun w' => (length (Chamber.past (read hist w'))
                         + length (Chamber.future (read hist w')))%nat in
  (Z.of_nat (size w) ≤ Z.max 0 maxSize)%Z →
  (Z.of_nat (size (Chamber.history_hook maxSize filter hist cmd result w).2)
   ≤ Z.max 0 maxSize)%Z
  ∧ size (Chamber.undo hist w).2 = size w
  ∧ size (Chamber.redo hist w).2 = size w
  ∧ size (Chamber.clear hist w) = 0%nat.
Proof.
  intros Hs Hf size Hb. subst size. simpl in *.
  assert (Htrack : ∀ w', read hist w' = read hist w →
            (Z.of_nat (length (Chamber.past (read hist (Chamber.track maxSize hist cmd w')))
                       + length (Chamber.future
                                   (read hist (Chamber.track maxSize hist cmd w'))))
             ≤ Z.max 0 maxSize)%Z).
  { intros w' Hw'. unfold Chamber.track. rewrite (read_write hist _ _ Hs). simpl.
    rewrite Nat.add_0_r, Hw'. apply push_bounded_length. lia. }
  split; [|split; [|split]].
  - unfold Chamber.history_hook. destruct (ok_of result w); [|exact Hb].
    destruct filter as [f|]; [|apply Htrack; reflexivity].
    pose proof (Hf f w eq_refl) as Hfw.
    destruct (f cmd w) as [[[]|e] w1]; simpl in *.
    + apply Htrack, Hfw.
    + rewrite Hfw. exact Hb.
    + rewrite Hfw. exact Hb.
  - unfold Chamber.undo.
    destruct (pop (Chamber.past (read hist w))) as [[p c]|] eqn:Hp; [|reflexivity].
    apply pop_Some in Hp. simpl. rewrite (read_write hist _ _ Hs). simpl.
    rewrite Hp, !length_app. simpl. lia.
  - unfold Chamber.redo.
    destruct (pop (Chamber.future (read hist w))) as [[f c]|] eqn:Hp; [|reflexivity].
    apply pop_Some in Hp. simpl. rewrite (read_write hist _ _ Hs). simpl.
    rewrite Hp, !length_app. simpl. lia.
  - unfold Chamber.clear. rewrite (read_write hist _ _ Hs). reflexivity.
Qed.

(** X16. With [maxSize] at least 1, the signals [canUndo] and [canRedo]
    of [useCommandHistory] say whether the undo and the redo stack hold a
    command: this holds at the start and is kept by the tracking of a
    command, by [undo], by [redo] and by [clear]. *)
Theorem useCommandHistory_flags_follow_the_stacks
  (hist : Cell U Chamber.History) maxSize cmd w :
  holds_its_value hist →
  (1 ≤ maxSize)%Z →
  let consistent := fun h =>
    Chamber.canUndo h = (0 <? length (Chamber.past h))
    ∧ Chamber.canRedo h = (0 <? length (Chamber.future h)) in
  consistent Chamber.no_history
  ∧ consistent (read hist (Chamber.track maxSize hist cmd w))
  ∧ (consistent (read hist w) →
     consistent (read hist (Chamber.undo hist w).2)
     ∧ consistent (read hist (Chamber.redo hist w).2))
  ∧ consistent (read hist (Chamber.clear hist w)).
Proof.
  intros Hs Hm consistent. subst consistent. simpl.
  split; [split; reflexivity|]. split; [|split].
  - unfold Chamber.track. rewrite (read_write hist _ _ Hs). simpl.
    rewrite push_bounded_spec by exact Hm.
    split; [|reflexivity].
    destruct (Z.of_nat (length (Chamber.past (read hist w))) <? maxSize)%Z;
      rewrite length_app; simpl; symmetry; apply Nat.ltb_lt; lia.
  - intros [Hu Hr]. split.
    + unfold Chamber.undo.
      destruct (pop (Chamber.past (read hist w))) as [[p c]|]; [|split; assumption].
      simpl. rewrite (read_write hist _ _ Hs). simpl. split; [reflexivity|].
      rewrite length_app. simpl. symmetry. apply Nat.ltb_lt. lia.
    + unfold Chamber.redo.
      destruct (pop (Chamber.future (read hist w))) as [[f c]|]; [|split; assumption].
      simpl. rewrite (read_write hist _ _ Hs). simpl. split; [|reflexivity].
      rewrite length_app. simpl. symmetry. apply Nat.ltb_lt. lia.
  - unfold Chamber.clear. rewrite (read_write hist _ _ Hs). split; reflexivity.
Qed.

(** X17. [undo] gives back the newest tracked command and [redo] after
    it gives the same command and puts both stacks back as they were;
    with nothing to undo, [undo] returns [undefined] and changes nothing,
    and likewise [redo] with nothing to redo. *)
Theorem useCommandHistory_redo_reverts_undo (hist : Cell U Chamber.History) w :
  holds_its_value hist →
  (∀ p cmd,
     Chamber.past (read hist w) = p ++ [cmd] →
     let '(undone, w1) := Chamber.undo hist w in
     let '(redone, w2) := Chamber.redo hist w1 in
     undone = Some cmd ∧ redone = Some cmd
     ∧ Chamber.past (read hist w1) = p
     ∧ Chamber.future (read hist w1) = Chamber.future (read hist w) ++ [cmd]
     ∧ Chamber.past (read hist w2) = Chamber.past (read hist w)
     ∧ Chamber.future (read hist w2) = Chamber.future (read hist w))
  ∧ (Chamber.past (read hist w) = [] → Chamber.undo hist w = (None, w))
  ∧ (Chamber.future (read hist w) = [] → Chamber.redo hist w = (None, w)).
Proof.
  intros Hs. split; [|split].
  - intros p cmd Hp. unfold Chamber.undo. rewrite Hp, pop_snoc.
    unfold Chamber.redo. rewrite (read_write hist _ _ Hs). simpl.
    rewrite pop_snoc. rewrite (read_write hist _ _ Hs). simpl.
    repeat split; reflexivity.
  - intros Hp. unfold Chamber.undo. rewrite Hp. reflexivity.
  - intros Hf. unfold Chamber.redo. rewrite Hf. reflexivity.
Qed.

(** X18. The hook of [useCommandHistory] tracks a command only when its
    result is ok: a failed command leaves the world as it is.  A tracked
    command (no filter, [maxSize] at least 1) becomes the newest entry of
    the undo stack, the oldest entry being dropped when the stack is full,
    and the redo stack is emptied. *)
Theorem useCommandHistory_tracks_successful_commands
  (hist : Cell U Chamber.History) maxSize cmd result w :
  holds_its_value hist →
  (1 ≤ maxSize)%Z →
  (ok_of result w = false →
   ∀ filter, Chamber.history_hook maxSize filter hist cmd result w = (Normal (), w))
  ∧ (ok_of result w = true →
     let w' := (Chamber.history_hook maxSize None hist cmd result w).2 in
     Chamber.past (read hist w')
     = (if (Z.of_nat (length (Chamber.past (read hist w))) <? maxSize)%Z
        then Chamber.past (read hist w)
        else tail (Chamber.past (read hist w))) ++ [cmd]
     ∧ Chamber.future (read hist w') = []).
Proof.
  intros Hs Hm. split.
  - intros Hok filter. unfold Chamber.history_hook. rewrite Hok. reflexivity.
  - intros Hok. unfold Chamber.history_hook. rewrite Hok. simpl.
    unfold Chamber.track. rewrite (read_write hist _ _ Hs). simpl.
    rewrite push_bounded_spec by exact Hm.
    destruct (Z.of_nat (length (Chamber.past (read hist w))) <? maxSize)%Z;
      split; reflexivity.
Qed.

End Stacks.

(** * plugins.ts *)

Section PluginFacts.

Context {U : Type}.
Implicit Types (w : World U) (code : Code U).

(** X19. The [history] plugin and [useCommandHistory] keep the same
    history: when [getState()] of the plugin shows what the four signals
    of [useCommandHistory] hold, it still does after both have tracked the
    same command ([maxSize] at least 1), after [undo] on both, which
    return the same command, after [redo] on both, and after [clear]. *)
Theorem history_plugin_agrees_with_useCommandHistory
  (hist : Cell U Chamber.History) (st : Cell U Plugins.Stacks) maxSize cmd wc wp :
  holds_its_value hist →
  holds_its_value st →
  (1 ≤ maxSize)%Z →
  let agree := fun wc' wp' =>
    Plugins.getState st wp'
    = Plugins.mkHistoryState
        (Chamber.past (read hist wc')) (Chamber.future (read hist wc'))
        (Chamber.canUndo (read hist wc')) (Chamber.canRedo (read hist wc')) in
  agree wc wp →
  agree (Chamber.track maxSize hist cmd wc) (Plugins.track maxSize st cmd wp)
  ∧ (Chamber.undo hist wc).1 = (Plugins.undo st wp).1
  ∧ agree (Chamber.undo hist wc).2 (Plugins.undo st wp).2
  ∧ (Chamber.redo hist wc).1 = (Plugins.redo st wp).1
  ∧ agree (Chamber.redo hist wc).2 (Plugins.redo st wp).2
  ∧ agree (Chamber.clear hist wc) (Plugins.clear st wp).
Proof.
  intros Hh Hs Hm agree Hag. subst agree. simpl in *.
  unfold Plugins.getState in *. injection Hag as Hp Hf Hu Hr.
  rewrite Hp in Hu. rewrite Hf in Hr.
  split; [|split; [|split; [|split; [|split]]]].
  - unfold Chamber.track, Plugins.track.
    rewrite (read_write hist _ _ Hh), (read_write st _ _ Hs). simpl.
    rewrite Hp. f_equal.
    rewrite push_bounded_spec by exact Hm.
    destruct (Z.of_nat (length (Chamber.past (read hist wc))) <? maxSize)%Z;
      rewrite length_app; simpl; apply Nat.ltb_lt; lia.
  - unfold Chamber.undo, Plugins.undo. rewrite Hp.
    destruct (pop (Chamber.past (read hist wc))) as [[p c]|]; reflexivity.
  - unfold Chamber.undo, Plugins.undo. rewrite Hp.
    destruct (pop (Chamber.past (read hist wc))) as [[p c]|]; simpl.
    + rewrite (read_write hist _ _ Hh), (read_write st _ _ Hs). simpl.
      rewrite Hf. f_equal. rewrite length_app. simpl. apply Nat.ltb_lt. lia.
    + rewrite ?Hp, ?Hf. rewrite Hu, Hr. reflexivity.
  - unfold Chamber.redo, Plugins.redo. rewrite Hf.
    destruct (pop (Chamber.future (read hist wc))) as [[f c]|]; reflexivity.
  - unfold Chamber.redo, Plugins.redo. rewrite Hf.
    destruct (pop (Chamber.future (read hist wc))) as [[f c]|]; simpl.
    + rewrite (read_write hist _ _ Hh), (read_write st _ _ Hs). simpl.
      rewrite Hp. f_equal. rewrite length_app. simpl. apply Nat.ltb_lt. lia.
    + rewrite ?Hp, ?Hf. rewrite Hu, Hr. reflexivity.
  - unfold Chamber.clear, Plugins.clear.
    rewrite (read_write hist _ _ Hh), (read_write st _ _ Hs). reflexivity.
Qed.

(** X20. The [history] plugin hands back the completion of [next()]
    unchanged (no filter), tracks nothing when that result is not ok or
    when [next()] throws, and never holds more than [maxSize] commands on
    its two stacks together, provided the rest of the chain leaves them
    within the bound. *)
Theorem history_plugin_is_transparent_and_bounded
  (st : Cell U Plugins.Stacks) maxSize cmd (next : M rref) w :
  holds_its_value st →
  let size := fun w' => (length (Plugins.past (read st w'))
                         + length (Plugins.future (read st w')))%nat in
  (Plugins.history maxSize None st cmd next w).1 = (next w).1
  ∧ ((∀ result, (next w).1 = Normal result → ok_of result (next w).2 = false) →
     Plugins.history maxSize None st cmd next w = next w)
  ∧ ((Z.of_nat (size (next w).2) ≤ Z.max 0 maxSize)%Z →
     (Z.of_nat (size (Plugins.history maxSize None st cmd next w).2)
      ≤ Z.max 0 maxSize)%Z).
Proof.
  intros Hs size. subst size. simpl. unfold Plugins.history.
  destruct (next w) as [[result|e] w1]; simpl.
  - split; [destruct (ok_of result w1); reflexivity|]. split.
    + intros Hfail. rewrite (Hfail result eq_refl). reflexivity.
    + intros Hb. destruct (ok_of result w1); [|exact Hb]. simpl.
      unfold Plugins.track. rewrite (read_write st _ _ Hs). simpl.
      rewrite Nat.add_0_r. apply push_bounded_length. lia.
  - split; [reflexivity|]. split; [reflexivity|]. intros Hb. exact Hb.
Qed.

Lemma action_of_new_command act tgt pl w :
  action_of (new_command act tgt pl w).1 (new_command act tgt pl w).2 = Some act.
Proof. unfold action_of. rewrite lookup_new_command. reflexivity. Qed.

(** X21. When the rule of the dispatched action returns a non-empty
    message, the [validator] plugin (registered first) ends the chain with
    [{ok: false, error: new Error(message)}]: the plugins after it and the
    handler are not run (replacing their code changes nothing), the hooks
    see that result. *)
Theorem validator_rejects_before_the_handler
  code fuel act tgt pl w v later rules rule message w1 :
  plugins w = v :: later →
  plugin_fn code v = Plugins.validator rules →
  rules act = Some rule →
  message ≠ "" →
  let '(cmd, w0) := new_command act tgt pl w in
  rule cmd w0 = (Normal (Some message), w1) →
  dispatch code fuel act tgt pl w
  = notify code fuel cmd (new_result (result_error (VError message)) w1)
  ∧ ∀ code', plugin_fn code' v = plugin_fn code v → hook_fn code' = hook_fn code →
      dispatch code' fuel act tgt pl w = dispatch code fuel act tgt pl w.
Proof.
  intros Hps Hv Hrule Hmsg.
  pose proof (action_of_new_command act tgt pl w) as Hact.
  unfold dispatch, new_command in *. simpl in *. intros Hr.
  assert (Hc : ∀ c ex, plugin_fn c v = plugin_fn code v →
            chain c (plugins w) (length (cmds w)) ex
              (set_cmds (fun cs => cs ++ [mkCommand act tgt pl]) w)
            = new_result (result_error (VError message)) w1).
  { intros c ex Hcv. rewrite Hps, chain_cons, Hcv, Hv. unfold Plugins.validator.
    rewrite Hact, Hrule, Hr. rewrite decide_False by exact Hmsg. reflexivity. }
  split.
  - rewrite (Hc code _ eq_refl). reflexivity.
  - intros code' Hcv Hk. rewrite (Hc code' _ Hcv), (Hc code _ eq_refl).
    apply notify_same_code, Hk.
Qed.

(** X22. The [validator] plugin (registered first) lets a command through
    to the rest of the chain when there is no rule for its action, when
    the rule returns [null], and also when the rule returns the empty
    string, which is not taken for an error message. *)
Theorem validator_lets_valid_commands_through code fuel act tgt pl w v later rules :
  plugins w = v :: later →
  plugin_fn code v = Plugins.validator rules →
  let '(cmd, w0) := new_command act tgt pl w in
  let rest := chain code later cmd (execute code (handlers w !! act) act cmd) in
  (rules act = None →
   dispatch code fuel act tgt pl w = notify code fuel cmd (rest w0))
  ∧ (∀ rule verdict w1,
       rules act = Some rule →
       rule cmd w0 = (Normal verdict, w1) →
       verdict = None ∨ verdict = Some "" →
       dispatch code fuel act tgt pl w = notify code fuel cmd (rest w1)).
Proof.
  intros Hps Hv.
  pose proof (action_of_new_command act tgt pl w) as Hact.
  unfold dispatch, new_command in *. simpl in *. split.
  - intros Hrule. rewrite Hps, chain_cons, Hv. unfold Plugins.validator.
    rewrite Hact, Hrule. reflexivity.
  - intros rule verdict w1 Hrule Hr Hverdict.
    rewrite Hps, chain_cons, Hv. unfold Plugins.validator.
    rewrite Hact, Hrule, Hr. destruct Hverdict as [->| ->]; reflexivity.
Qed.

(** X23. [throttle]: a command of a listed action whose key was last run
    [wait] milliseconds ago or more (a key never run counting as run at
    time 0) goes on to the rest of the chain with the time of this run
    recorded under its key.  A command with the same key arriving less
    than [wait] later, the record still in place, does not reach the rest
    of the chain: the plugin returns a result [{ok: true, value:
    {throttled: true, key, retryIn}}] with [retryIn] the positive time
    left, and changes nothing else. *)
Theorem throttle_blocks_a_key_for_wait_milliseconds
  (actions : list string) wait (clock : World U → Z) (stringify : Val → string)
  (lastRun : Cell U (gmap string Z)) cmd c (next : M rref) w :
  holds_its_value lastRun →
  cmds w !! cmd = Some c →
  action c ∈ actions →
  let key := Plugins.throttle_key stringify c in
  (wait ≤ clock w - default 0 (read lastRun w !! key))%Z →
  Plugins.throttle actions wait clock stringify lastRun cmd next w
  = next (write lastRun (<[key := clock w]> (read lastRun w)) w)
  ∧ ∀ w2 cmd2 c2 (next2 : M rref),
      read lastRun w2 !! key = Some (clock w) →
      cmds w2 !! cmd2 = Some c2 →
      action c2 ∈ actions →
      Plugins.throttle_key stringify c2 = key →
      (clock w2 - clock w < wait)%Z →
      Plugins.throttle actions wait clock stringify lastRun cmd2 next2 w2
      = new_result (result_ok (Plugins.throttled key (wait - (clock w2 - clock w)))) w2
      ∧ (0 < wait - (clock w2 - clock w))%Z.
Proof.
  intros Hs Hc Hin key Hdue. split.
  - unfold Plugins.throttle. rewrite Hc. rewrite decide_True by exact Hin.
    fold key. rewrite (proj2 (Z.leb_le _ _) Hdue). reflexivity.
  - intros w2 cmd2 c2 next2 Hlast Hc2 Hin2 Hkey Hsoon.
    unfold Plugins.throttle. rewrite Hc2. rewrite decide_True by exact Hin2.
    rewrite Hkey, Hlast. simpl.
    rewrite (proj2 (Z.leb_gt _ _)) by lia. split; [reflexivity|lia].
Qed.

End PluginFacts.

(** * examples/custom-plugins.ts *)

Section ExampleFacts.

Context {U : Type}.
Implicit Types (w : World U) (code : Code U).

(** X24. [authGuardPlugin] (registered first): a command whose action
    starts with a protected prefix is rejected with "Unauthorized: <action>
    requires authentication" when [isAuthenticated()] is false, without
    running the rest of the chain, and goes on when it is true; a command
    with no protected prefix goes on without [isAuthenticated] being
    called. *)
Theorem authGuard_rejects_protected_actions
  code fuel act tgt pl w g later (isAuthenticated : M bool) prefixes :
  plugins w = g :: later →
  plugin_fn code g = Examples.authGuardPlugin isAuthenticated prefixes →
  let '(cmd, w0) := new_command act tgt pl w in
  let rest := chain code later cmd (execute code (handlers w !! act) act cmd) in
  (∀ p w1, p ∈ prefixes → String.prefix p act = true →
     isAuthenticated w0 = (Normal false, w1) →
     dispatch code fuel act tgt pl w
     = notify code fuel cmd
         (new_result
            (result_error
               (VError ("Unauthorized: " +:+ act +:+ " requires authentication")))
            w1))
  ∧ (∀ p w1, p ∈ prefixes → String.prefix p act = true →
       isAuthenticated w0 = (Normal true, w1) →
       dispatch code fuel act tgt pl w = notify code fuel cmd (rest w1))
  ∧ ((∀ p, p ∈ prefixes → String.prefix p act = false) →
     dispatch code fuel act tgt pl w = notify code fuel cmd (rest w0)).
Proof.
  intros Hps Hg.
  pose proof (action_of_new_command act tgt pl w) as Hact.
  unfold dispatch, new_command in *. simpl in *.
  assert (Hyes : ∀ p, p ∈ prefixes → String.prefix p act = true →
            existsb (fun p => String.prefix p act) prefixes = true).
  { intros p Hin Hp. apply existsb_exists. exists p.
    split; [apply list_elem_of_In, Hin|exact Hp]. }
  split; [|split].
  - intros p w1 Hin Hp Hauth. rewrite Hps, chain_cons, Hg.
    unfold Examples.authGuardPlugin. rewrite Hact, (Hyes p Hin Hp), Hauth. reflexivity.
  - intros p w1 Hin Hp Hauth. rewrite Hps, chain_cons, Hg.
    unfold Examples.authGuardPlugin. rewrite Hact, (Hyes p Hin Hp), Hauth. reflexivity.
  - intros Hno. rewrite Hps, chain_cons, Hg. unfold Examples.authGuardPlugin.
    rewrite Hact.
    destruct (existsb (fun p => String.prefix p act) prefixes) eqn:Hex; [|reflexivity].
    apply existsb_exists in Hex as (p & Hin & Hp).
    apply list_elem_of_In in Hin. rewrite (Hno p Hin) in Hp. discriminate.
Qed.

(** On times in ascending order the loop that shifts old requests out
    keeps exactly the times within the window. *)
Lemma shift_older_sorted limit (requests : list Z) :
  StronglySorted Z.le requests →
  Examples.shift_older limit requests = filter (fun t => (limit ≤ t)%Z) requests.
Proof.
  induction 1 as [|t requests Hsorted IH Hall]; [reflexivity|].
  simpl. rewrite filter_cons.
  destruct (t <? limit)%Z eqn:Hlt.
  - apply Z.ltb_lt in Hlt. rewrite decide_False by lia. exact IH.
  - apply Z.ltb_ge in Hlt. rewrite decide_True by lia. f_equal.
    clear IH. induction Hall as [|t' requests Ht' Hall IH]; [reflexivity|].
    apply StronglySorted_inv in Hsorted as [Hsorted _].
    rewrite filter_cons. rewrite decide_True by lia. f_equal. apply IH, Hsorted.
Qed.

(** X25. [rateLimiterPlugin] for whole numbers [maxRequests] and
    [windowMs], with the recorded times in ascending order and none later
    than the clock: a command is rejected, without running the rest of the
    chain, exactly when at least [maxRequests] commands were let through
    within the last [windowMs] milliseconds; otherwise it goes on with its
    time recorded.  Either way the times kept are those within the window,
    still in ascending order and none later than the clock, and when the
    command goes on there are at most [maxRequests] of them.  The message
    of the rejection holds the two numbers as [show] prints them, whatever
    [show] is. *)
Theorem rateLimiter_bounds_the_commands_in_a_window
  (show : Z → string) maxRequests windowMs (clock : World U → Z)
  (requests : Cell U (list Z)) cmd (next : M rref) w :
  holds_its_value requests →
  (0 ≤ windowMs)%Z →
  StronglySorted Z.le (read requests w) →
  Forall (fun t => (t ≤ clock w)%Z) (read requests w) →
  let recent := filter (fun t => (clock w - windowMs ≤ t)%Z) (read requests w) in
  ((maxRequests ≤ Z.of_nat (length recent))%Z →
   Examples.rateLimiterPlugin show maxRequests windowMs clock requests cmd next w
   = new_result
       (result_error
          (VError ("Rate limit exceeded. Max " +:+ show maxRequests
                   +:+ " requests per " +:+ show windowMs +:+ "ms")))
       (write requests recent w))
  ∧ ((Z.of_nat (length recent) < maxRequests)%Z →
     Examples.rateLimiterPlugin show maxRequests windowMs clock requests cmd next w
     = next (write requests (recent ++ [clock w]) w)
     ∧ read requests (write requests (recent ++ [clock w]) w) = recent ++ [clock w]
     ∧ (Z.of_nat (length (recent ++ [clock w])) ≤ maxRequests)%Z
     ∧ StronglySorted Z.le (recent ++ [clock w])
     ∧ Forall (fun t => (clock w - windowMs ≤ t ≤ clock w)%Z) (recent ++ [clock w])).
Proof.
  intros Hs Hwin Hsorted Hpast recent.
  unfold Examples.rateLimiterPlugin. rewrite (shift_older_sorted _ _ Hsorted).
  fold recent. split.
  - intros Hfull. rewrite (proj2 (Z.leb_le _ _) Hfull). reflexivity.
  - intros Hroom. rewrite (proj2 (Z.leb_gt _ _) Hroom).
    split; [reflexivity|]. split; [apply read_write, Hs|].
    split; [rewrite length_app; simpl; lia|].
    assert (Hrecent : Forall (fun t => (clock w - windowMs ≤ t ≤ clock w)%Z) recent).
    { apply Forall_forall. intros t Ht. subst recent.
      apply list_elem_of_filter in Ht as [Hge Hin].
      split; [exact Hge|]. exact (proj1 (Forall_forall _ _) Hpast t Hin). }
    split.
    + assert (Hsr : StronglySorted Z.le recent).
      { subst recent. clear -Hsorted.
        induction Hsorted as [|t l Hl IH Hall]; [constructor|].
        rewrite filter_cons. case_decide; [|exact IH].
        constructor; [exact IH|].
        apply Forall_forall. intros t' Ht'. apply list_elem_of_filter in Ht' as [_ Ht'].
        exact (proj1 (Forall_forall _ _) Hall t' Ht'). }
      clear -Hsr Hrecent. induction Hsr as [|t l Hl IH Hall]; simpl.
      * constructor; constructor.
      * apply Forall_cons in Hrecent as [Ht Hrecent].
        constructor; [apply IH, Hrecent|].
        apply Forall_app. split; [exact Hall|]. constructor; [lia|constructor].
    + apply Forall_app. split; [exact Hrecent|]. constructor; [lia|constructor].
Qed.

(** X26. [transformPlugin] (registered first) rewrites the command object
    in place: the rest of the chain, the handler and the hooks see the
    action, the target and (when the transform gives one) the payload of
    the transformed command behind the same reference, no other command
    object being touched.  The handler that runs is still the one bound to
    the action the command was dispatched with, also when the transform
    changes the action. *)
Theorem transformPlugin_rewrites_the_command_in_place
  code fuel act tgt pl w t later transforms transform tr c w1 :
  plugins w = t :: later →
  plugin_fn code t = Examples.transformPlugin transforms →
  transforms act = Some transform →
  let '(cmd, w0) := new_command act tgt pl w in
  transform cmd w0 = (Normal tr, w1) →
  cmds w1 !! cmd = Some c →
  let w2 := Examples.assign cmd tr w1 in
  dispatch code fuel act tgt pl w
  = notify code fuel cmd
      (chain code later cmd (execute code (handlers w !! act) act cmd) w2)
  ∧ cmds w2 !! cmd
    = Some (mkCommand (Examples.new_action tr) (Examples.new_target tr)
              (default (payload c) (Examples.new_payload tr)))
  ∧ (∀ other, other ≠ cmd → cmds w2 !! other = cmds w1 !! other)
  ∧ handlers w2 = handlers w1 ∧ user w2 = user w1.
Proof.
  intros Hps Ht Htr.
  pose proof (action_of_new_command act tgt pl w) as Hact.
  unfold dispatch, new_command in *. simpl in *. intros Hcall Hc.
  split; [|split; [|split; [|split]]].
  - rewrite Hps, chain_cons, Ht. unfold Examples.transformPlugin.
    rewrite Hact, Htr, Hcall. reflexivity.
  - unfold Examples.assign. rewrite Hc. simpl.
    apply list_lookup_insert_eq. eapply lookup_lt_Some, Hc.
  - intros other Hne. unfold Examples.assign. rewrite Hc. simpl.
    apply list_lookup_insert_ne. congruence.
  - unfold Examples.assign. rewrite Hc. reflexivity.
  - unfold Examples.assign. rewrite Hc. reflexivity.
Qed.

End ExampleFacts.

(** * Instances on the clients of the reactive layer and of the plugins *)

Section LabWitnesses.

Import Lab.

Lemma use_then_unsubscribe_restores_the_bus_witness :
  (use validating (bus [] [watching] [] (at_time 0))).1
    (use validating (bus [] [watching] [] (at_time 0))).2
  = bus [] [watching] [] (at_time 0).
Proof.
  assert (Hnin : validating ∉ plugins (bus [] [watching] [] (at_time 0))).
  { apply not_elem_of_cons. split; [discriminate|apply not_elem_of_nil]. }
  exact (proj1 (use_then_unsubscribe_restores_the_bus validating
                  (bus [] [watching] [] (at_time 0)) Hnin)).
Defined.

Lemma unsubscribe_of_a_second_registration_removes_the_first_witness :
  plugins ((use watching (bus [] [watching; validating] [] (at_time 0))).1
             (use watching (bus [] [watching; validating] [] (at_time 0))).2)
  = [validating; watching].
Proof.
  exact (proj2 (unsubscribe_of_a_second_registration_removes_the_first watching
                  (bus [] [watching; validating] [] (at_time 0)) [] [validating]
                  eq_refl (not_elem_of_nil _))).
Defined.

(** A plugin that throws, registered between two that observe. *)
Lemma plugin_failure_leaves_dispatch_and_skips_the_hooks_witness :
  dispatch code 0 "test.action" (VObj FNil) VUndefined
    (bus [("test.action", done)] [watching; breaking; watching] [0] (at_time 0))
  = Some (Thrown (VError "plugin broke"),
          mkWorld {["test.action" := done]} [watching; breaking; watching] [0]
            [mkCommand "test.action" (VObj FNil) VUndefined] [] [] (at_time 0)).
Proof.
  pose proof (plugin_failure_leaves_dispatch_and_skips_the_hooks code 0 "test.action"
                (VObj FNil) VUndefined
                (bus [("test.action", done)] [watching; breaking; watching] [0]
                   (at_time 0))) as H.
  cbv beta iota delta [new_command] in H. destruct H as [_ H].
  edestruct (H [watching] breaking [watching]
               (fun _ _ (w : W) => (Normal (), w))
               (fun _ _ result (w : W) => (Normal result, w))
               _ _ _ _ _ eq_refl ltac:(repeat constructor) eq_refl eq_refl eq_refl)
    as [Hd _].
  rewrite Hd. reflexivity.
Defined.

Lemma dispatch_with_observers_does_not_throw_witness :
  ∃ result : rref, @Normal rref 0 = Normal result.
Proof.
  eapply (dispatch_with_observers_does_not_throw code 2 "test.error" (VObj FNil)
            VUndefined (bus [("test.error", failing)] [watching] [0] (at_time 0))
            (fun _ _ (w : W) => w) (fun _ _ _ (w : W) => w)).
  - repeat constructor.
  - reflexivity.
Defined.

Lemma async_handler_outcome_becomes_the_result_witness :
  outcome (settle (dispatch_async async_code 2 "test.error" (VObj FNil) VUndefined
                     (bus [("test.error", failing)] [] [0] (at_time 0))))
  = Some (Normal (Some {| ok := false; value := None;
                          error := Some (VError "Test error") |})).
Proof.
  pose proof (async_handler_outcome_becomes_the_result async_code 2 "test.error"
                (VObj FNil) VUndefined
                (bus [("test.error", failing)] [] [0] (at_time 0)) eq_refl) as H.
  cbv beta iota delta [new_command] in H. destruct H as (_ & H & _).
  edestruct H as [Hd _]; [reflexivity|reflexivity|reflexivity|].
  rewrite Hd. reflexivity.
Defined.

Lemma async_chain_rejection_skips_the_hooks_witness :
  fst <$> settle (dispatch_async async_code 0 "test.action" (VObj FNil) VUndefined
                    (bus [("test.action", done)] [breaking] [0] (at_time 0)))
  = Some (Thrown (VError "plugin broke")).
Proof.
  epose proof (async_chain_rejection_skips_the_hooks async_code 0 "test.action"
                 (VObj FNil) VUndefined
                 (bus [("test.action", done)] [breaking] [0] (at_time 0)) _ _) as H.
  cbv beta iota delta [new_command] in H. destruct (H eq_refl) as [Hd _].
  rewrite Hd. reflexivity.
Defined.

Lemma useCommand_reports_the_outcome_witness :
  ∃ w', Chamber.useCommand loading_cell lastError_cell code 1 "test.error" (VObj FNil)
          VUndefined (bus [("test.error", failing)] [] [] (at_time 0))
        = Some (Normal 0, w')
        ∧ results w' !! 0 = Some (result_error (VError "Test error"))
        ∧ read loading_cell w' = false
        ∧ read lastError_cell w' = Some (VError "Test error").
Proof.
  eexists. split; [reflexivity|]. split; [reflexivity|].
  epose proof (useCommand_reports_the_outcome loading_cell lastError_cell code 1
                 "test.error" (VObj FNil) VUndefined
                 (bus [("test.error", failing)] [] [] (at_time 0)) _ _
                 (fun _ _ => eq_refl) (fun _ _ => eq_refl)
                 (fun _ _ => eq_refl) (fun _ _ => eq_refl) eq_refl) as (Hl & He & _).
  split; [exact Hl|exact (He eq_refl)].
Defined.

(** A plugin that throws behind one that observes: [loading] stays set. *)
Lemma useCommand_leaves_loading_set_when_a_plugin_throws_witness :
  (fun x => (x.1, read loading_cell x.2))
    <$> Chamber.useCommand loading_cell lastError_cell code 1 "test.action" (VObj FNil)
          VUndefined (bus [("test.action", done)] [watching; breaking] [] (at_time 0))
  = Some (Thrown (VError "plugin broke"), true).
Proof.
  epose proof (useCommand_leaves_loading_set_when_a_plugin_throws
                 loading_cell lastError_cell code 1 "test.action" (VObj FNil) VUndefined
                 (bus [("test.action", done)] [watching; breaking] [] (at_time 0))
                 _ _ (fun _ _ => eq_refl) (fun _ _ => eq_refl)) as H.
  cbv beta iota delta [new_command] in H. destruct (H eq_refl) as (Hd & _ & Hl).
  rewrite Hd. cbn [fmap option_fmap option_map fst snd].
  rewrite (Hl eq_refl). reflexivity.
Defined.

Lemma useCommandState_binds_and_dispose_unbinds_witness :
  handlers (Chamber.useCommandState counter_cell (VNum 0)
              [("counter.increment", counting)] (bus [] [] [] (at_time 0))).2
    !! "counter.increment" = Some counting
  ∧ handlers ((Chamber.useCommandState counter_cell (VNum 0)
                 [("counter.increment", counting)] (bus [] [] [] (at_time 0))).1
                (bus [("counter.increment", done); ("test.action", done)] [] []
                   (at_time 0)))
      !! "counter.increment" = None.
Proof.
  pose proof (useCommandState_binds_and_dispose_unbinds counter_cell (VNum 0)
                [("counter.increment", counting)] (bus [] [] [] (at_time 0))
                (fun _ _ => eq_refl) (NoDup_singleton _)) as H.
  destruct (Chamber.useCommandState counter_cell (VNum 0)
              [("counter.increment", counting)] (bus [] [] [] (at_time 0)))
    as [dispose w1].
  cbv beta iota in H. destruct H as (_ & Hbind & _ & Hdispose). split.
  - apply Hbind. apply list_elem_of_here.
  - cbn [fst snd]. rewrite Hdispose. reflexivity.
Defined.


Lemma useCommandHistory_holds_at_most_maxSize_witness :
  (length (Chamber.past (read hist_cell
             (hooks_of 0 7 0
                (alloc_result (result_ok (VStr "done")) (bus [] [] [] (at_time 0)))).2))
   ≤ 2)%nat.
Proof.
  pose proof (useCommandHistory_holds_at_most_maxSize hist_cell 2 None 7 0
                (alloc_result (result_ok (VStr "done")) (bus [] [] [] (at_time 0)))
                (fun _ _ => eq_refl)
                (fun f w' (H : None = Some f) => ltac:(discriminate))
                ltac:(simpl; lia)) as [H _].
  unfold hooks_of. simpl in *. lia.
Defined.

Lemma useCommandHistory_flags_follow_the_stacks_witness :
  Chamber.canUndo (read hist_cell (Chamber.track 2 hist_cell 7 (bus [] [] [] (at_time 0))))
  = true.
Proof.
  pose proof (useCommandHistory_flags_follow_the_stacks hist_cell 2 7
                (bus [] [] [] (at_time 0)) (fun _ _ => eq_refl) ltac:(lia))
    as (_ & [Hu _] & _).
  rewrite Hu. reflexivity.
Defined.

Lemma useCommandHistory_redo_reverts_undo_witness :
  (Chamber.undo hist_cell
     (Chamber.track 2 hist_cell 8 (Chamber.track 2 hist_cell 7 (bus [] [] [] (at_time 0))))).1
  = Some 8.
Proof.
  pose proof (useCommandHistory_redo_reverts_undo hist_cell
                (Chamber.track 2 hist_cell 8
                   (Chamber.track 2 hist_cell 7 (bus [] [] [] (at_time 0))))
                (fun _ _ => eq_refl)) as [H _].
  specialize (H [7] 8 eq_refl).
  destruct (Chamber.undo hist_cell _) as [undone w1].
  destruct (Chamber.redo hist_cell w1) as [redone w2].
  destruct H as [H _]. exact H.
Defined.

Lemma useCommandHistory_tracks_successful_commands_witness :
  Chamber.past
    (read hist_cell
       (hooks_of 0 9 0
          (alloc_result (result_ok (VStr "done"))
             (Chamber.track 2 hist_cell 8
                (Chamber.track 2 hist_cell 7 (bus [] [] [] (at_time 0)))))).2)
  = [8; 9].
Proof.
  pose proof (useCommandHistory_tracks_successful_commands hist_cell 2 9 0
                (alloc_result (result_ok (VStr "done"))
                   (Chamber.track 2 hist_cell 8
                      (Chamber.track 2 hist_cell 7 (bus [] [] [] (at_time 0)))))
                (fun _ _ => eq_refl) ltac:(lia)) as [_ H].
  destruct (H eq_refl) as [Hp _]. unfold hooks_of. rewrite Hp. reflexivity.
Defined.

Lemma history_plugin_agrees_with_useCommandHistory_witness :
  (Chamber.undo hist_cell (Chamber.track 2 hist_cell 7 (bus [] [] [] (at_time 0)))).1
  = (Plugins.undo stacks_cell (Plugins.track 2 stacks_cell 7 (bus [] [] [] (at_time 0)))).1.
Proof.
  pose proof (history_plugin_agrees_with_useCommandHistory hist_cell stacks_cell 2 7
                (Chamber.track 2 hist_cell 7 (bus [] [] [] (at_time 0)))
                (Plugins.track 2 stacks_cell 7 (bus [] [] [] (at_time 0)))
                (fun _ _ => eq_refl) (fun _ _ => eq_refl) ltac:(lia) eq_refl)
    as (_ & H & _).
  exact H.
Defined.

Lemma validator_rejects_before_the_handler_witness :
  outcome (dispatch code 1 "form.login" (VNum 5) VUndefined
             (bus [("form.login", done)] [validating] [] (at_time 0)))
  = Some (Normal (Some {| ok := false; value := None;
                          error := Some (VError "Invalid email address") |})).
Proof.
  epose proof (validator_rejects_before_the_handler code 1 "form.login" (VNum 5)
                 VUndefined (bus [("form.login", done)] [validating] [] (at_time 0))
                 validating [] rules _ "Invalid email address" _
                 eq_refl eq_refl eq_refl ltac:(discriminate)) as H.
  cbv beta iota delta [new_command] in H. destruct (H eq_refl) as [Hd _].
  rewrite Hd. reflexivity.
Defined.

Lemma validator_lets_valid_commands_through_witness :
  outcome (dispatch code 1 "form.login" (VStr "a@b.c") VUndefined
             (bus [("form.login", done)] [validating] [] (at_time 0)))
  = Some (Normal (Some {| ok := true; value := Some (VStr "done"); error := None |})).
Proof.
  pose proof (validator_lets_valid_commands_through code 1 "form.login" (VStr "a@b.c")
                VUndefined (bus [("form.login", done)] [validating] [] (at_time 0))
                validating [] rules eq_refl eq_refl) as H.
  cbv beta iota zeta delta [new_command] in H. destruct H as [_ H].
  epose proof (H _ None _ eq_refl eq_refl (or_introl eq_refl)) as Hd.
  rewrite Hd. reflexivity.
Defined.

Lemma throttle_blocks_a_key_for_wait_milliseconds_witness :
  (fun x => (x.1, results x.2))
    (plugins_of throttling 0 (new_result (result_ok (VStr "found")))
       (mkWorld ∅ [] [] [mkCommand "search" (VObj FNil) VUndefined] [] []
          (mkState [] false None (VNum 0) Chamber.no_history (Plugins.mkStacks [] [])
             {["search:{}" := 1000%Z]} [] 1040 false)))
  = (Normal 0,
     [{| ok := true; value := Some (Plugins.throttled "search:{}" 60); error := None |}]).
Proof.
  pose proof (throttle_blocks_a_key_for_wait_milliseconds ["search"] 100 clock json
                lastRun_cell 0 (mkCommand "search" (VObj FNil) VUndefined)
                (new_result (result_ok (VStr "found")))
                (mkWorld ∅ [] [] [mkCommand "search" (VObj FNil) VUndefined] [] []
                   (at_time 1000))
                (fun _ _ => eq_refl) eq_refl ltac:(repeat constructor)) as H.
  cbv zeta in H. destruct (H ltac:(vm_compute; discriminate)) as [_ H2].
  edestruct (H2 (mkWorld ∅ [] [] [mkCommand "search" (VObj FNil) VUndefined] [] []
                   (mkState [] false None (VNum 0) Chamber.no_history
                      (Plugins.mkStacks [] []) {["search:{}" := 1000%Z]} [] 1040 false))
               0 (mkCommand "search" (VObj FNil) VUndefined)
               (new_result (result_ok (VStr "found"))))
    as [Hthrottled _];
    [reflexivity|reflexivity|repeat constructor|reflexivity|vm_compute; reflexivity|].
  cbn [plugins_of throttling]. rewrite Hthrottled. reflexivity.
Defined.

Lemma authGuard_rejects_protected_actions_witness :
  outcome (dispatch code 1 "admin.settings" (VObj FNil) VUndefined
             (bus [("admin.settings", done)] [guarding] [] (at_time 0)))
  = Some (Normal
            (Some {| ok := false; value := None;
                     error := Some (VError "Unauthorized: admin.settings requires authentication") |})).
Proof.
  pose proof (authGuard_rejects_protected_actions code 1 "admin.settings" (VObj FNil)
                VUndefined (bus [("admin.settings", done)] [guarding] [] (at_time 0))
                guarding [] isAuthenticated ["admin."; "user.delete"]
                eq_refl eq_refl) as H.
  cbv beta iota zeta delta [new_command] in H. destruct H as [H _].
  epose proof (H "admin." _ ltac:(repeat constructor) eq_refl eq_refl) as Hd.
  rewrite Hd. reflexivity.
Defined.

Lemma rateLimiter_bounds_the_commands_in_a_window_witness :
  read requests_cell
    (plugins_of limiting 0 (new_result (result_ok (VStr "done")))
       (bus [] [] []
          (mkState [] false None (VNum 0) Chamber.no_history (Plugins.mkStacks [] [])
             ∅ [100; 900; 950]%Z 1500 false))).2
  = [900; 950; 1500]%Z.
Proof.
  pose proof (rateLimiter_bounds_the_commands_in_a_window show_number 3 1000 clock
                requests_cell 0 (new_result (result_ok (VStr "done")))
                (bus [] [] []
                   (mkState [] false None (VNum 0) Chamber.no_history
                      (Plugins.mkStacks [] []) ∅ [100; 900; 950]%Z 1500 false))
                (fun _ _ => eq_refl) ltac:(lia)
                ltac:(repeat constructor; lia)
                ltac:(repeat constructor; vm_compute; discriminate)) as H.
  cbv zeta in H. destruct H as [_ H].
  destruct (H ltac:(vm_compute; reflexivity)) as [Hrun _].
  cbn [plugins_of limiting]. rewrite Hrun. reflexivity.
Defined.

Lemma transformPlugin_rewrites_the_command_in_place_witness :
  (fun x => (x.1, results x.2, cmds x.2))
    <$> dispatch code 1 "legacy.add" (VStr "widget") VUndefined
          (bus [("legacy.add", done)] [transforming] [] (at_time 0))
  = Some (Normal 0, [{| ok := true; value := Some (VStr "done"); error := None |}],
          [mkCommand "item.add" (VStr "widget") (VStr "migrated")]).
Proof.
  epose proof (transformPlugin_rewrites_the_command_in_place code 1 "legacy.add"
                 (VStr "widget") VUndefined
                 (bus [("legacy.add", done)] [transforming] [] (at_time 0))
                 transforming [] transforms _ _ _ _ eq_refl eq_refl eq_refl) as H.
  cbv beta iota delta [new_command] in H.
  destruct (H eq_refl eq_refl) as [Hd _]. rewrite Hd. reflexivity.
Defined.

Lemma history_plugin_is_transparent_and_bounded_witness :
  (Plugins.history 2 None stacks_cell 3 (new_result (result_ok (VStr "done")))
     (Plugins.track 2 stacks_cell 2
        (Plugins.track 2 stacks_cell 1 (bus [] [] [] (at_time 0))))).1
  = Normal 0.
Proof.
  pose proof (history_plugin_is_transparent_and_bounded stacks_cell 2 3
                (new_result (result_ok (VStr "done")))
                (Plugins.track 2 stacks_cell 2
                   (Plugins.track 2 stacks_cell 1 (bus [] [] [] (at_time 0))))
                (fun _ _ => eq_refl)) as [H _].
  rewrite H. reflexivity.
Defined.

Example rate_limit_message :
  (fun x => (x.1, results x.2))
    (plugins_of limiting 0 (new_result (result_ok (VStr "done")))
       (bus [] [] []
          (mkState [] false None (VNum 0) Chamber.no_history (Plugins.mkStacks [] [])
             ∅ [600; 900; 950]%Z 1500 false)))
  = (Normal 0,
     [{| ok := false; value := None;
         error := Some (VError "Rate limit exceeded. Max 3 requests per 1000ms") |}]).
Proof. reflexivity. Qed.

End LabWitnesses.
